(** * Inline variable / function: the inlinable-code finder, and the
      merge-with-previous-if transform

    Shallow embedding of
    [src/refactorings/inline-variable-or-function/find-inlinable-code.ts] and
    [src/refactorings/merge-with-previous-if-statement/merge-with-previous-if-statement.ts].

    The syntax tree, its traversal and the editor's range type belong to
    modules ([../../ast], [../../editor/selection]) whose sources are not part
    of the files studied here; they are modelled from the specification's
    interface section and each such definition says so. *)

From Stdlib Require Import List String Ascii Bool Arith Lia DecimalString.
Import ListNotations.
Local Open Scope string_scope.
Local Open Scope list_scope.
Local Open Scope nat_scope.

Set Implicit Arguments.
Set Warnings "-register-all".

(* ===================================================================== *)
(** ** Editor: positions and selections *)
(* ===================================================================== *)

Module Editor.

Record Position := mkPosition { line : nat; character : nat }.

Definition pos_eqb (a b : Position) : bool :=
  (line a =? line b) && (character a =? character b).

(** [a] is at or before [b] in reading order. *)
Definition pos_leb (a b : Position) : bool :=
  (line a <? line b) || ((line a =? line b) && (character a <=? character b)).

(** A node's source location, as the parser records it. *)
Record SourceLocation := mkLoc { loc_start : Position; loc_end : Position }.

Definition loc_eqb (a b : SourceLocation) : bool :=
  pos_eqb (loc_start a) (loc_start b) && pos_eqb (loc_end a) (loc_end b).

Record Selection := mkSelection { sel_start : Position; sel_end : Position }.

(** Modelled from the spec: [Selection.cursorAt] of the editor module, the
    zero-width range at a line and a character. *)
Definition cursorAt (l c : nat) : Selection :=
  mkSelection (mkPosition l c) (mkPosition l c).

(** Modelled from the spec: [Selection.fromAST], "conversion from a syntax
    node's location to a range value". *)
Definition fromAST (loc : SourceLocation) : Selection :=
  mkSelection (loc_start loc) (loc_end loc).

(** Modelled from the spec: the "containment test" of the range
    abstraction. *)
Definition isInside (s outer : Selection) : bool :=
  pos_leb (sel_start outer) (sel_start s) && pos_leb (sel_end s) (sel_end outer).

(** Modelled from the spec: the range-extension operations, "extend this
    range's start/end to another range's start/end, extend to start-of-line /
    start-of-next-line". *)
Definition extendStartToStartOf (s other : Selection) : Selection :=
  mkSelection (sel_start other) (sel_end s).

Definition extendStartToEndOf (s other : Selection) : Selection :=
  mkSelection (sel_end other) (sel_end s).

Definition extendEndToStartOf (s other : Selection) : Selection :=
  mkSelection (sel_start s) (sel_start other).

Definition extendToStartOfLine (s : Selection) : Selection :=
  mkSelection (mkPosition (line (sel_start s)) 0) (sel_end s).

Definition extendToStartOfNextLine (s : Selection) : Selection :=
  mkSelection (sel_start s) (mkPosition (S (line (sel_end s))) 0).

Definition sel_eqb (a b : Selection) : bool :=
  pos_eqb (sel_start a) (sel_start b) && pos_eqb (sel_end a) (sel_end b).

End Editor.
Export Editor.

(* ===================================================================== *)
(** ** Syntax tree *)
(* ===================================================================== *)

Module Ast.

(** The [value] field of a node that is not one of the shapes below. *)
Inductive JsValue := VUndefined | VNull | VText (s : string).

(** The node kinds the two refactorings look at.  Every node carries its
    optional [loc]; a numeric literal keeps its value as the text JavaScript
    prints for it, the only way the code observes it. *)
Inductive Node :=
| Identifier (loc : option SourceLocation) (name : string)
| NumericLiteral (loc : option SourceLocation) (value : string)
| StringLiteral (loc : option SourceLocation) (value : string)
| ThisExpression (loc : option SourceLocation)
| OtherNode (loc : option SourceLocation) (kind : string) (value : JsValue)
| MemberExpression (loc : option SourceLocation)
    (object property : Node) (computed : bool)
| CallExpression (loc : option SourceLocation)
    (callee : Node) (arguments : list Node)
| UnaryExpression (loc : option SourceLocation)
    (operator : string) (argument : Node)
| AssignmentExpression (loc : option SourceLocation)
    (operator : string) (left right : Node)
| ObjectExpression (loc : option SourceLocation) (properties : list Node)
| ObjectProperty (loc : option SourceLocation)
    (key value : Node) (computed shorthand : bool)
| RestElement (loc : option SourceLocation) (argument : Node)
| ObjectPattern (loc : option SourceLocation) (properties : list Node)
| ArrayPattern (loc : option SourceLocation) (elements : list (option Node))
| ExpressionStatement (loc : option SourceLocation) (expression : Node)
| ReturnStatement (loc : option SourceLocation) (argument : option Node)
| VariableDeclarator (loc : option SourceLocation)
    (id : Node) (init : option Node)
| VariableDeclaration (loc : option SourceLocation)
    (kind : string) (declarations : list Node)
| BlockStatement (loc : option SourceLocation) (body : list Node)
| IfStatement (loc : option SourceLocation)
    (test consequent : Node) (alternate : option Node)
| FunctionDeclaration (loc : option SourceLocation)
    (id : option Node) (params : list Node) (body : Node)
| Program (loc : option SourceLocation) (body : list Node).

Definition loc_of (n : Node) : option SourceLocation :=
  match n with
  | Identifier l _ | NumericLiteral l _ | StringLiteral l _
  | ThisExpression l | OtherNode l _ _ | MemberExpression l _ _ _
  | CallExpression l _ _ | UnaryExpression l _ _
  | AssignmentExpression l _ _ _ | ObjectExpression l _
  | ObjectProperty l _ _ _ _ | RestElement l _ | ObjectPattern l _
  | ArrayPattern l _ | ExpressionStatement l _ | ReturnStatement l _
  | VariableDeclarator l _ _ | VariableDeclaration l _ _
  | BlockStatement l _ | IfStatement l _ _ _
  | FunctionDeclaration l _ _ _ | Program l _ => l
  end.

(** *** Type guards *)

Definition isIdentifier (n : Node) : bool :=
  match n with Identifier _ _ => true | _ => false end.
Definition isNumericLiteral (n : Node) : bool :=
  match n with NumericLiteral _ _ => true | _ => false end.
Definition isStringLiteral (n : Node) : bool :=
  match n with StringLiteral _ _ => true | _ => false end.
Definition isThisExpression (n : Node) : bool :=
  match n with ThisExpression _ => true | _ => false end.
Definition isMemberExpression (n : Node) : bool :=
  match n with MemberExpression _ _ _ _ => true | _ => false end.
Definition isUnaryExpression (n : Node) : bool :=
  match n with UnaryExpression _ _ _ => true | _ => false end.
Definition isAssignmentExpression (n : Node) : bool :=
  match n with AssignmentExpression _ _ _ _ => true | _ => false end.
Definition isObjectProperty (n : Node) : bool :=
  match n with ObjectProperty _ _ _ _ _ => true | _ => false end.
Definition isRestElement (n : Node) : bool :=
  match n with RestElement _ _ => true | _ => false end.
Definition isObjectPattern (n : Node) : bool :=
  match n with ObjectPattern _ _ => true | _ => false end.
Definition isArrayPattern (n : Node) : bool :=
  match n with ArrayPattern _ _ => true | _ => false end.
Definition isIfStatement (n : Node) : bool :=
  match n with IfStatement _ _ _ _ => true | _ => false end.
Definition isBlockStatement (n : Node) : bool :=
  match n with BlockStatement _ _ => true | _ => false end.
Definition isReturnStatement (n : Node) : bool :=
  match n with ReturnStatement _ _ => true | _ => false end.
Definition isFunctionDeclaration (n : Node) : bool :=
  match n with FunctionDeclaration _ _ _ _ => true | _ => false end.

(** Modelled from the spec: [ast.isSelectableNode], a node that has a
    "source-location (line/column start and end)". *)
Definition isSelectableNode (n : Node) : bool :=
  match loc_of n with Some _ => true | None => false end.

(** A [SelectableNode]: the node together with the location the guard
    found. *)
Record SelectableNode := mkSelectable { sn_node : Node; sn_loc : SourceLocation }.

Definition asSelectableNode (n : Node) : option SelectableNode :=
  match loc_of n with
  | Some l => Some (mkSelectable n l)
  | None => None
  end.

(** A [SelectableIdentifier]. *)
Record SelectableIdentifier :=
  mkSelectableIdentifier { si_loc : SourceLocation; si_name : string }.

Definition asSelectableIdentifier (n : Node) : option SelectableIdentifier :=
  match n with
  | Identifier (Some l) name => Some (mkSelectableIdentifier l name)
  | _ => None
  end.

Definition si_node (i : SelectableIdentifier) : Node :=
  Identifier (Some (si_loc i)) (si_name i).

(** A [SelectableObjectProperty]: the code reads [property.loc],
    [property.key.loc] and [property.value.loc] of such a node as
    locations, so the guard holds when the three are present. *)
Record SelectableObjectProperty := mkSelectableObjectProperty {
  sop_node : Node;
  sop_loc : SourceLocation;
  sop_key : Node;
  sop_key_loc : SourceLocation;
  sop_value : Node;
  sop_value_loc : SourceLocation
}.

Definition asSelectableObjectProperty (n : Node)
  : option SelectableObjectProperty :=
  match n with
  | ObjectProperty (Some l) key value _ _ =>
      match loc_of key, loc_of value with
      | Some kl, Some vl => Some (mkSelectableObjectProperty n l key kl value vl)
      | _, _ => None
      end
  | _ => None
  end.

Definition isSelectableObjectProperty (n : Node) : bool :=
  match asSelectableObjectProperty n with Some _ => true | None => false end.

(** Modelled from the spec: [selection.isInsideNode(node)], "does this range
    lie inside a node's location". *)
Definition isInsideNode (s : Selection) (n : Node) : bool :=
  match loc_of n with
  | Some l => isInside s (fromAST l)
  | None => false
  end.

(** *** Structural equality *)

Section ListEq.
Variable A : Type.
Variable eqA : A -> A -> bool.
Fixpoint list_eqb (l l' : list A) : bool :=
  match l, l' with
  | [], [] => true
  | x :: r, y :: r' => eqA x y && list_eqb r r'
  | _, _ => false
  end.
End ListEq.

Definition option_eqb (A : Type) (eqA : A -> A -> bool) (a b : option A) : bool :=
  match a, b with
  | None, None => true
  | Some x, Some y => eqA x y
  | _, _ => false
  end.

Definition value_eqb (a b : JsValue) : bool :=
  match a, b with
  | VUndefined, VUndefined | VNull, VNull => true
  | VText s, VText t => String.eqb s t
  | _, _ => false
  end.

(** Modelled from the spec: [ast.areEqual], the "structural-equality test
    between two nodes"; two identifiers are equal when they have the "same
    name", wherever they stand. *)
Fixpoint areEqual (a b : Node) {struct a} : bool :=
  match a, b with
  | Identifier _ n, Identifier _ m => String.eqb n m
  | NumericLiteral _ v, NumericLiteral _ w => String.eqb v w
  | StringLiteral _ v, StringLiteral _ w => String.eqb v w
  | ThisExpression _, ThisExpression _ => true
  | OtherNode _ k v, OtherNode _ k' v' => String.eqb k k' && value_eqb v v'
  | MemberExpression _ o p c, MemberExpression _ o' p' c' =>
      areEqual o o' && areEqual p p' && Bool.eqb c c'
  | CallExpression _ f args, CallExpression _ f' args' =>
      areEqual f f' && list_eqb areEqual args args'
  | UnaryExpression _ op x, UnaryExpression _ op' x' =>
      String.eqb op op' && areEqual x x'
  | AssignmentExpression _ op l r, AssignmentExpression _ op' l' r' =>
      String.eqb op op' && areEqual l l' && areEqual r r'
  | ObjectExpression _ ps, ObjectExpression _ ps' => list_eqb areEqual ps ps'
  | ObjectProperty _ k v c s, ObjectProperty _ k' v' c' s' =>
      areEqual k k' && areEqual v v' && Bool.eqb c c' && Bool.eqb s s'
  | RestElement _ x, RestElement _ x' => areEqual x x'
  | ObjectPattern _ ps, ObjectPattern _ ps' => list_eqb areEqual ps ps'
  | ArrayPattern _ es, ArrayPattern _ es' =>
      list_eqb (option_eqb areEqual) es es'
  | ExpressionStatement _ e, ExpressionStatement _ e' => areEqual e e'
  | ReturnStatement _ x, ReturnStatement _ x' => option_eqb areEqual x x'
  | VariableDeclarator _ i x, VariableDeclarator _ i' x' =>
      areEqual i i' && option_eqb areEqual x x'
  | VariableDeclaration _ k ds, VariableDeclaration _ k' ds' =>
      String.eqb k k' && list_eqb areEqual ds ds'
  | BlockStatement _ b, BlockStatement _ b' => list_eqb areEqual b b'
  | IfStatement _ t c a, IfStatement _ t' c' a' =>
      areEqual t t' && areEqual c c' && option_eqb areEqual a a'
  | FunctionDeclaration _ i ps b, FunctionDeclaration _ i' ps' b' =>
      option_eqb areEqual i i' && list_eqb areEqual ps ps' && areEqual b b'
  | Program _ b, Program _ b' => list_eqb areEqual b b'
  | _, _ => false
  end.

(** *** Traversal *)

(** One entry of the [ancestors] array handed to a traversal handler: the
    ancestor node, the field of it that leads to the visited node and, for a
    field that holds an array, the position in it. *)
Record Ancestor := mkAncestor {
  anc_node : Node;
  anc_key : string;
  anc_index : option nat
}.

(** One call of the [enter] handler: the node and its ancestors, outermost
    first. *)
Definition Visit : Type := Node * list Ancestor.

Section Descend.
Variable visit : list Ancestor -> Node -> list Visit.
Variable ancestors : list Ancestor.
Variable parent : Node.
Variable key : string.

Definition descend (child : Node) : list Visit :=
  visit (ancestors ++ [mkAncestor parent key None]) child.

Definition descendOpt (child : option Node) : list Visit :=
  match child with
  | Some c => descend c
  | None => []
  end.

Fixpoint descendAll (i : nat) (children : list Node) : list Visit :=
  match children with
  | [] => []
  | c :: rest =>
      visit (ancestors ++ [mkAncestor parent key (Some i)]) c
        ++ descendAll (S i) rest
  end.

(** Empty slots of an array field are stepped over, their position still
    counts. *)
Fixpoint descendSlots (i : nat) (children : list (option Node)) : list Visit :=
  match children with
  | [] => []
  | Some c :: rest =>
      visit (ancestors ++ [mkAncestor parent key (Some i)]) c
        ++ descendSlots (S i) rest
  | None :: rest => descendSlots (S i) rest
  end.
End Descend.

(** Modelled from the spec: [ast.traverseNode], the "parent-chain traversal
    with enter/visit control" of the syntax tree provider.  The result is the
    sequence of [enter(node, ancestors)] calls, a node before its children and
    the children field by field in the order the node kind lists them. *)
Fixpoint traverseFrom (ancestors : list Ancestor) (n : Node) {struct n}
  : list Visit :=
  (n, ancestors) ::
  match n with
  | Identifier _ _ | NumericLiteral _ _ | StringLiteral _ _
  | ThisExpression _ | OtherNode _ _ _ => []
  | MemberExpression _ o p _ =>
      descend traverseFrom ancestors n "object" o
        ++ descend traverseFrom ancestors n "property" p
  | CallExpression _ f args =>
      descend traverseFrom ancestors n "callee" f
        ++ descendAll traverseFrom ancestors n "arguments" 0 args
  | UnaryExpression _ _ x => descend traverseFrom ancestors n "argument" x
  | AssignmentExpression _ _ l r =>
      descend traverseFrom ancestors n "left" l
        ++ descend traverseFrom ancestors n "right" r
  | ObjectExpression _ ps =>
      descendAll traverseFrom ancestors n "properties" 0 ps
  | ObjectProperty _ k v _ _ =>
      descend traverseFrom ancestors n "key" k
        ++ descend traverseFrom ancestors n "value" v
  | RestElement _ x => descend traverseFrom ancestors n "argument" x
  | ObjectPattern _ ps =>
      descendAll traverseFrom ancestors n "properties" 0 ps
  | ArrayPattern _ es =>
      descendSlots traverseFrom ancestors n "elements" 0 es
  | ExpressionStatement _ e => descend traverseFrom ancestors n "expression" e
  | ReturnStatement _ x => descendOpt traverseFrom ancestors n "argument" x
  | VariableDeclarator _ i x =>
      descend traverseFrom ancestors n "id" i
        ++ descendOpt traverseFrom ancestors n "init" x
  | VariableDeclaration _ _ ds =>
      descendAll traverseFrom ancestors n "declarations" 0 ds
  | BlockStatement _ b => descendAll traverseFrom ancestors n "body" 0 b
  | IfStatement _ t c a =>
      descend traverseFrom ancestors n "test" t
        ++ descend traverseFrom ancestors n "consequent" c
        ++ descendOpt traverseFrom ancestors n "alternate" a
  | FunctionDeclaration _ i ps b =>
      descendOpt traverseFrom ancestors n "id" i
        ++ descendAll traverseFrom ancestors n "params" 0 ps
        ++ descend traverseFrom ancestors n "body" b
  | Program _ b => descendAll traverseFrom ancestors n "body" 0 b
  end.

Definition traverseNode (root : Node) : list Visit := traverseFrom [] root.

(** The last element of an array, [last] of [array-helpers]. *)
Definition last_entry (A : Type) (l : list A) : option A :=
  match rev l with
  | [] => None
  | x :: _ => Some x
  end.

(** *** The children of a node, field by field *)

Definition Child : Type := string * option nat * Node.

Fixpoint indexed (key : string) (i : nat) (l : list Node) : list Child :=
  match l with
  | [] => []
  | c :: rest => (key, Some i, c) :: indexed key (S i) rest
  end.

Fixpoint indexedSlots (key : string) (i : nat) (l : list (option Node))
  : list Child :=
  match l with
  | [] => []
  | Some c :: rest => (key, Some i, c) :: indexedSlots key (S i) rest
  | None :: rest => indexedSlots key (S i) rest
  end.

Definition field (key : string) (c : Node) : list Child := [(key, None, c)].

Definition fieldOpt (key : string) (c : option Node) : list Child :=
  match c with Some c' => field key c' | None => [] end.

Definition children (n : Node) : list Child :=
  match n with
  | Identifier _ _ | NumericLiteral _ _ | StringLiteral _ _
  | ThisExpression _ | OtherNode _ _ _ => []
  | MemberExpression _ o p _ => field "object" o ++ field "property" p
  | CallExpression _ f args => field "callee" f ++ indexed "arguments" 0 args
  | UnaryExpression _ _ x => field "argument" x
  | AssignmentExpression _ _ l r => field "left" l ++ field "right" r
  | ObjectExpression _ ps => indexed "properties" 0 ps
  | ObjectProperty _ k v _ _ => field "key" k ++ field "value" v
  | RestElement _ x => field "argument" x
  | ObjectPattern _ ps => indexed "properties" 0 ps
  | ArrayPattern _ es => indexedSlots "elements" 0 es
  | ExpressionStatement _ e => field "expression" e
  | ReturnStatement _ x => fieldOpt "argument" x
  | VariableDeclarator _ i x => field "id" i ++ fieldOpt "init" x
  | VariableDeclaration _ _ ds => indexed "declarations" 0 ds
  | BlockStatement _ b => indexed "body" 0 b
  | IfStatement _ t c a =>
      field "test" t ++ field "consequent" c ++ fieldOpt "alternate" a
  | FunctionDeclaration _ i ps b =>
      fieldOpt "id" i ++ indexed "params" 0 ps ++ field "body" b
  | Program _ b => indexed "body" 0 b
  end.

Definition entryOf (parent : Node) (c : Child) : Ancestor :=
  mkAncestor parent (fst (fst c)) (snd (fst c)).

(** [Reaches root chain n]: [n] is a node of the tree [root], and [chain] lists
    the nodes that enclose it, outermost first, each with the field that leads
    one step further down. *)
Inductive Reaches (root : Node) : list Ancestor -> Node -> Prop :=
| Reaches_root : Reaches root [] root
| Reaches_child : forall chain p c,
    Reaches root chain p ->
    In c (children p) ->
    Reaches root (chain ++ [entryOf p c]) (snd c).

End Ast.
Export Ast.

(* ===================================================================== *)
(** ** find-inlinable-code.ts *)
(* ===================================================================== *)

Module FindInlinableCode.

(** *** Text helpers *)

Definition dquote : string := String "034"%char EmptyString.

(** What a template literal prints for a [string | null]. *)
Definition interpolate (o : option string) : string :=
  match o with
  | Some s => s
  | None => "null"
  end.

Definition isNull (A : Type) (o : option A) : bool :=
  match o with Some _ => false | None => true end.

Definition isSome (A : Type) (o : option A) : bool :=
  match o with Some _ => true | None => false end.

(** [property.value === null]: of the node kinds above only a node of
    another kind can hold a [value] that is [null]; a literal holds its
    value, an object property holds a node, the rest have no such field. *)
Definition valueIsNull (n : Node) : bool :=
  match n with
  | OtherNode _ _ VNull => true
  | _ => false
  end.

(** [!initName] of a [string | null]: [null] and the empty string are both
    falsy.  The result is the name when it is truthy. *)
Definition truthyName (o : option string) : option string :=
  match o with
  | Some (String _ _ as name) => Some name
  | _ => None
  end.

(** *** [getInitName] *)

Fixpoint getInitName (init : Node) : option string :=
  match init with
  | Identifier _ name => Some name
  | MemberExpression _ object property computed =>
      let propertyName :=
        match property with
        | NumericLiteral _ value => ("[" ++ value ++ "]")%string
        | StringLiteral _ value =>
            ("[" ++ dquote ++ value ++ dquote ++ "]")%string
        | Identifier _ name =>
            if computed then ("[" ++ name ++ "]")%string
            else ("." ++ interpolate (getInitName property))%string
        | _ => ("." ++ interpolate (getInitName property))%string
        end in
      if valueIsNull property && isNull (getInitName property)
      then (* We can't resolve property name. Stop here. *) None
      else Some (interpolate (getInitName object) ++ propertyName)%string
  | ObjectProperty _ key _ _ _ => getInitName key
  | ThisExpression _ => Some "this"
  | _ => None
  end.

(** *** Reference collection of [InlinableIdentifier] *)

Record IdentifierToReplace := mkIdentifierToReplace {
  loc : SourceLocation;
  isInUnaryExpression : bool;
  shorthandKey : option string
}.

(** Whether [n] is the very node of the binding and not merely an
    identifier of the same name: in a parsed tree a location belongs to one
    identifier. *)
Definition isBindingItself (id : SelectableIdentifier) (n : Node) : bool :=
  match n with
  | Identifier (Some l) name => loc_eqb (si_loc id) l && String.eqb (si_name id) name
  | _ => false
  end.

(** Modelled from the spec: whether a binding shape (an identifier, an
    object or array pattern, a rest element) declares the binding's name
    through an identifier other than the binding's own. *)
Fixpoint bindsOther (id : SelectableIdentifier) (shape : Node) {struct shape}
  : bool :=
  match shape with
  | Identifier _ _ => areEqual (si_node id) shape && negb (isBindingItself id shape)
  | ObjectPattern _ properties =>
      existsb (fun property =>
                 match property with
                 | ObjectProperty _ _ value _ _ => bindsOther id value
                 | RestElement _ argument => bindsOther id argument
                 | _ => false
                 end) properties
  | ArrayPattern _ elements =>
      existsb (fun slot =>
                 match slot with
                 | Some element => bindsOther id element
                 | None => false
                 end) elements
  | RestElement _ argument => bindsOther id argument
  | _ => false
  end.

Definition declaratorRedeclares (id : SelectableIdentifier) (d : Node) : bool :=
  match d with
  | VariableDeclarator _ did _ => bindsOther id did
  | _ => false
  end.

Definition statementRedeclares (id : SelectableIdentifier) (statement : Node)
  : bool :=
  match statement with
  | VariableDeclaration _ _ ds => existsb (declaratorRedeclares id) ds
  | FunctionDeclaration _ (Some name) _ _ => bindsOther id name
  | _ => false
  end.

(** Modelled from the spec: a nested scope that "redeclares the same name".
    The scopes are the function declarations, which declare their parameters,
    and the blocks, which declare the variables and the functions declared
    among their statements; a name is declared by an identifier, or by a
    destructuring pattern or a rest element that holds it.  The binding's own
    identifier does not count. *)
Definition redeclares (id : SelectableIdentifier) (scope : Node) : bool :=
  match scope with
  | FunctionDeclaration _ _ params _ => existsb (bindsOther id) params
  | BlockStatement _ body => existsb (statementRedeclares id) body
  | _ => false
  end.

(** Modelled from the spec: [ast.isShadowIn(id, ancestors)], the occurrence
    "lies within a more deeply nested scope that redeclares the same name".
    The test is given the binding and the chain of ancestors only, so it
    decides from the enclosing nodes, not from where in them the occurrence
    stands. *)
Definition isShadowIn (id : SelectableIdentifier) (ancestors : list Ancestor) : bool :=
  existsb (fun a => redeclares id (anc_node a)) ancestors.

(** [ast.isFunctionDeclaration(parent)] is asked of the ancestor entry
    [{ node, key, index }] itself, which has no [type]: it never holds. *)
Definition isFunctionDeclarationEntry (parent : Ancestor) : bool := false.

(** [parent.node.<field> === node]: the visited node is the object held by
    that field of its parent.  A parsed tree shares no node between two
    fields, so this is the field the traversal came through. *)
Definition cameThrough (parent : Ancestor) (field : string) : bool :=
  String.eqb (anc_key parent) field.

Definition isShorthand (n : Node) : bool :=
  match n with
  | ObjectProperty _ _ _ _ shorthand => shorthand
  | _ => false
  end.

(** The [enter] handler of [computeIdentifiersToReplace]: what one call
    pushes, if anything. *)
Definition enterReference (id : SelectableIdentifier) (v : Visit)
  : option IdentifierToReplace :=
  let '(node, ancestors) := v in
  match loc_of node with
  | None => None
  | Some nodeLoc =>
      if negb (areEqual (si_node id) node) then None
      else if isShadowIn id ancestors then None
      else
        let selection := fromAST nodeLoc in
        let isSameIdentifier := isInsideNode selection (si_node id) in
        if isSameIdentifier then None
        else
          match last_entry ancestors with
          | None => None
          | Some parent =>
              if isFunctionDeclarationEntry parent then None
              else if isObjectProperty (anc_node parent) && cameThrough parent "key"
              then None
              else if isMemberExpression (anc_node parent)
                      && cameThrough parent "property"
              then None
              else
                Some (mkIdentifierToReplace
                        nodeLoc
                        (isUnaryExpression (anc_node parent))
                        (match node with
                         | Identifier _ name =>
                             if isObjectProperty (anc_node parent)
                                && isShorthand (anc_node parent)
                             then Some name else None
                         | _ => None
                         end))
          end
  end.

Definition pushed (A : Type) (o : option A) : list A :=
  match o with Some x => [x] | None => [] end.

Definition computeIdentifiersToReplace (id : SelectableIdentifier) (scope : Node)
  : list IdentifierToReplace :=
  flat_map (fun v => pushed (enterReference id v)) (traverseNode scope).

(** The [enter] handler of the [isRedeclared] getter: whether one call sets
    [result]. *)
Definition enterAssignment (id : SelectableIdentifier) (v : Visit) : bool :=
  match fst v with
  | AssignmentExpression _ _ lhs _ => areEqual (si_node id) lhs
  | _ => false
  end.

Definition identifierIsRedeclared (id : SelectableIdentifier) (scope : Node) : bool :=
  existsb (enterAssignment id) (traverseNode scope).

(** *** The component interface and its implementations *)

Record Modification := mkModification {
  code : string;
  selection : Selection
}.

(** [InlinableCode], as a closed set of variants: the identifier leaf and
    the composites, each composite holding its [child].  The leaf runs
    [computeIdentifiersToReplace] when it is constructed and keeps the
    result.  (The type-alias leaf is found by another entry point and is not
    part of this embedding.) *)
Inductive InlinableCode :=
| InlinableIdentifier (id : SelectableIdentifier) (scope : Node)
    (valueSelection : Selection)
    (identifiersToReplace : list IdentifierToReplace)
| SingleDeclaration (child : InlinableCode)
| MultipleDeclarations (child : InlinableCode)
    (previous : SelectableNode) (next : option SelectableNode)
| InlinableObjectPattern (child : InlinableCode) (initName : string)
    (property : SelectableObjectProperty) (hasRestSibling : bool)
    (previous next : option SelectableObjectProperty)
| InlinableArrayPattern (child : InlinableCode) (index : nat)
    (element : SelectableNode) (previous next : option SelectableNode)
| InlinableTopLevelPattern (child : InlinableCode) (loc : SourceLocation).

(** [new InlinableIdentifier(id, scope, valueLoc)]. *)
Definition newInlinableIdentifier (id : SelectableIdentifier) (scope : Node)
    (valueLoc : SourceLocation) : InlinableCode :=
  InlinableIdentifier id scope (fromAST valueLoc)
    (computeIdentifiersToReplace id scope).

(** [new InlinableObjectPattern(child, initName, property, hasRestSibling,
    previous, next)]: a sibling is kept only when it is a selectable object
    property. *)
Definition newInlinableObjectPattern (child : InlinableCode) (initName : string)
    (property : SelectableObjectProperty) (hasRestSibling : bool)
    (previous next : option Node) : InlinableCode :=
  InlinableObjectPattern child initName property hasRestSibling
    (match previous with Some p => asSelectableObjectProperty p | None => None end)
    (match next with Some p => asSelectableObjectProperty p | None => None end).

(** [new InlinableArrayPattern(child, index, element, previous, next)]. *)
Definition newInlinableArrayPattern (child : InlinableCode) (index : nat)
    (element : SelectableNode) (previous next : option Node) : InlinableCode :=
  InlinableArrayPattern child index element
    (match previous with Some p => asSelectableNode p | None => None end)
    (match next with Some p => asSelectableNode p | None => None end).

(** The wrapped child of a composite. *)
Definition childOf (c : InlinableCode) : option InlinableCode :=
  match c with
  | InlinableIdentifier _ _ _ _ => None
  | SingleDeclaration child | MultipleDeclarations child _ _
  | InlinableObjectPattern child _ _ _ _ _
  | InlinableArrayPattern child _ _ _ _
  | InlinableTopLevelPattern child _ => Some child
  end.

Section Getters.

(** The export-name lookup of [./find-exported-id-names], an external
    collaborator: "given a scope, returns the set of identifier names
    re-exported from it". *)
Variable findExportedIdNames : Node -> list string.

Fixpoint isRedeclared (c : InlinableCode) : bool :=
  match c with
  | InlinableIdentifier id scope _ _ => identifierIsRedeclared id scope
  | SingleDeclaration child | MultipleDeclarations child _ _
  | InlinableObjectPattern child _ _ _ _ _
  | InlinableArrayPattern child _ _ _ _
  | InlinableTopLevelPattern child _ => isRedeclared child
  end.

Fixpoint isExported (c : InlinableCode) : bool :=
  match c with
  | InlinableIdentifier id scope _ _ =>
      existsb (String.eqb (si_name id)) (findExportedIdNames scope)
  | SingleDeclaration child | MultipleDeclarations child _ _
  | InlinableObjectPattern child _ _ _ _ _
  | InlinableArrayPattern child _ _ _ _
  | InlinableTopLevelPattern child _ => isExported child
  end.

Fixpoint hasIdentifiersToUpdate (c : InlinableCode) : bool :=
  match c with
  | InlinableIdentifier _ _ _ ids => 0 <? List.length ids
  | SingleDeclaration child | MultipleDeclarations child _ _
  | InlinableObjectPattern child _ _ _ _ _
  | InlinableArrayPattern child _ _ _ _
  | InlinableTopLevelPattern child _ => hasIdentifiersToUpdate child
  end.

Fixpoint valueSelection (c : InlinableCode) : Selection :=
  match c with
  | InlinableIdentifier _ _ v _ => v
  | SingleDeclaration child | MultipleDeclarations child _ _
  | InlinableObjectPattern child _ _ _ _ _
  | InlinableArrayPattern child _ _ _ _
  | InlinableTopLevelPattern child _ => valueSelection child
  end.

Fixpoint shouldExtendSelectionToDeclaration (c : InlinableCode) : bool :=
  match c with
  | InlinableIdentifier _ _ _ _ => true
  | SingleDeclaration child | MultipleDeclarations child _ _
  | InlinableTopLevelPattern child _ =>
      shouldExtendSelectionToDeclaration child
  | InlinableObjectPattern child _ _ hasRestSibling previous next =>
      if negb (shouldExtendSelectionToDeclaration child) then false
      else if hasRestSibling then false
      else negb (isSome next) && negb (isSome previous)
  | InlinableArrayPattern child _ _ previous next =>
      if negb (shouldExtendSelectionToDeclaration child) then false
      else negb (isSome next) && negb (isSome previous)
  end.

Fixpoint codeToRemoveSelection (c : InlinableCode) : Selection :=
  match c with
  | InlinableIdentifier id _ v _ =>
      extendStartToStartOf v (fromAST (si_loc id))
  | SingleDeclaration child =>
      let selection := codeToRemoveSelection child in
      if negb (shouldExtendSelectionToDeclaration child) then selection
      else extendToStartOfNextLine (extendToStartOfLine selection)
  | MultipleDeclarations child previous next =>
      let selection := codeToRemoveSelection child in
      if negb (shouldExtendSelectionToDeclaration child) then selection
      else
        match next with
        | Some n => extendEndToStartOf selection (fromAST (sn_loc n))
        | None => extendStartToEndOf selection (fromAST (sn_loc previous))
        end
  | InlinableObjectPattern child _ property hasRestSibling previous next =>
      if negb (shouldExtendSelectionToDeclaration child)
      then codeToRemoveSelection child
      else if hasRestSibling then
        let valueSelection := fromAST (sop_value_loc property) in
        let keySelection := fromAST (sop_key_loc property) in
        let NO_SELECTION := cursorAt 0 0 in
        if isObjectPattern (sop_value property)
        then extendStartToEndOf valueSelection keySelection
        else NO_SELECTION
      else
        let selection := fromAST (sop_loc property) in
        match next, previous with
        | Some n, _ => extendEndToStartOf selection (fromAST (sop_loc n))
        | None, Some p => extendStartToEndOf selection (fromAST (sop_loc p))
        | None, None => selection
        end
  | InlinableArrayPattern child _ element previous next =>
      if negb (shouldExtendSelectionToDeclaration child)
      then codeToRemoveSelection child
      else
        let selection := fromAST (sn_loc element) in
        match previous, next with
        | Some p, None => extendStartToEndOf selection (fromAST (sn_loc p))
        | _, _ => selection
        end
  | InlinableTopLevelPattern child loc =>
      if shouldExtendSelectionToDeclaration child then fromAST loc
      else codeToRemoveSelection child
  end.

End Getters.

(** The references a leaf, or the leaf under a composite, collected. *)
Fixpoint collectedReferences (c : InlinableCode) : list IdentifierToReplace :=
  match c with
  | InlinableIdentifier _ _ _ ids => ids
  | SingleDeclaration child | MultipleDeclarations child _ _
  | InlinableObjectPattern child _ _ _ _ _
  | InlinableArrayPattern child _ _ _ _
  | InlinableTopLevelPattern child _ => collectedReferences child
  end.

(** *** [updateIdentifiersWith] *)

(** [s.split(sep)] for a one-character separator. *)
Fixpoint splitOn (sep : ascii) (s : string) : list string :=
  match s with
  | EmptyString => [EmptyString]
  | String c rest =>
      if Ascii.eqb c sep then EmptyString :: splitOn sep rest
      else
        match splitOn sep rest with
        | part :: parts => String c part :: parts
        | [] => [String c EmptyString]
        end
  end.

(** [String(index)]. *)
Definition showIndex (index : nat) : string :=
  NilZero.string_of_uint (Nat.to_uint index).

Definition prependObjectValueWithInitName (initName code : string) : string :=
  (* If destructured variable was renamed, `code` would be `userId: id`.
     In that case, we only want to retrieve the `userId` part *)
  let objectValue := hd EmptyString (splitOn ":"%char code) in
  let OBJECT_SEPARATOR := "." in
  let parts := splitOn "."%char objectValue in
  let lastPart := List.last parts EmptyString in
  String.concat OBJECT_SEPARATOR (removelast parts ++ [initName; lastPart]).

Definition replacementFor (inlinedCode : string) (r : IdentifierToReplace)
  : Modification :=
  mkModification
    (if isInUnaryExpression r then ("(" ++ inlinedCode ++ ")")%string
     else
       match shorthandKey r with
       | Some (String _ _ as key) => (key ++ ": " ++ inlinedCode)%string
       | _ => inlinedCode
       end)
    (fromAST (loc r)).

Fixpoint updateIdentifiersWith (c : InlinableCode) (inlinedCode : string)
  : list Modification :=
  match c with
  | InlinableIdentifier _ _ _ ids => map (replacementFor inlinedCode) ids
  | SingleDeclaration child | MultipleDeclarations child _ _
  | InlinableTopLevelPattern child _ => updateIdentifiersWith child inlinedCode
  | InlinableObjectPattern child initName _ _ _ _ =>
      updateIdentifiersWith child
        (prependObjectValueWithInitName initName inlinedCode)
  | InlinableArrayPattern child index _ _ _ =>
      updateIdentifiersWith child
        (inlinedCode ++ "[" ++ showIndex index ++ "]")%string
  end.

(** *** [findInlinableCode] *)

(** [array.forEach((item, index) => ...)] with the handler's effect on the
    captured [result] as a state. *)
Section ForEach.
Variables (A St : Type).
Variable callback : St -> A -> nat -> St.

Fixpoint forEachFrom (index : nat) (items : list A) (state : St) : St :=
  match items with
  | [] => state
  | item :: rest => forEachFrom (S index) rest (callback state item index)
  end.

Definition forEach (items : list A) (state : St) : St :=
  forEachFrom 0 items state.
End ForEach.

(** [items[index - 1]] and [items[index + 1]]: [undefined] out of range,
    and index [-1] is always out of range. *)
Definition itemBefore (A : Type) (items : list A) (index : nat) : option A :=
  match index with
  | 0 => None
  | S i => nth_error items i
  end.

Definition itemAfter (A : Type) (items : list A) (index : nat) : option A :=
  nth_error items (S index).

Definition wrapInTopLevelPattern (child : option InlinableCode)
    (declarationIsVariableDeclarator : bool) (loc : SourceLocation)
  : option InlinableCode :=
  match child with
  | None => None
  | Some c =>
      let isTopLevelObjectPattern := declarationIsVariableDeclarator in
      if isTopLevelObjectPattern then Some (InlinableTopLevelPattern c loc)
      else Some c
  end.

Section Callbacks.
(** The recursive call [findInlinableCode(selection, parent, { id, init })]
    on a declaration written as an object literal. *)
Variable recur : Node -> option Node -> option InlinableCode.
Variable selection : Selection.
Variable init : Node.

(** The handler of [id.properties.forEach] in the object-pattern case. *)
Definition objectPatternCallback (properties : list Node)
    (result : option InlinableCode) (property : Node) (index : nat)
  : option InlinableCode :=
  if negb (isInsideNode selection property) then result
  else if isRestElement property then result
  else
    match property with
    | ObjectProperty _ _ value _ _ =>
        match asSelectableObjectProperty property with
        | None => result
        | Some selectable =>
            match recur value (Some property) with
            | None => result
            | Some child =>
                match truthyName (getInitName init) with
                | None => result
                | Some initName =>
                    let previous := itemBefore properties index in
                    let next := itemAfter properties index in
                    let hasRestSibling := existsb isRestElement properties in
                    Some (newInlinableObjectPattern child initName selectable
                            hasRestSibling previous next)
                end
            end
        end
    | _ => result
    end.

Definition flatten (A : Type) (o : option (option A)) : option A :=
  match o with Some x => x | None => None end.

(** The handler of [id.elements.forEach] in the array-pattern case. *)
Definition arrayPatternCallback (elements : list (option Node))
    (result : option InlinableCode) (slot : option Node) (index : nat)
  : option InlinableCode :=
  match slot with
  | None => result
  | Some element =>
      if negb (isInsideNode selection element) then result
      else
        match asSelectableNode element with
        | None => result
        | Some selectable =>
            match recur element (Some init) with
            | None => result
            | Some child =>
                let previous := flatten (itemBefore elements index) in
                let next := flatten (itemAfter elements index) in
                Some (newInlinableArrayPattern child index selectable
                        previous next)
            end
        end
  end.
End Callbacks.

(** A [Declaration] is passed by its fields [id] and [init];
    [isVariableDeclarator] tells whether the object is a variable-declarator
    node, as the caller's is, or an object literal [{ id, init }], as the
    recursive calls' are. *)
Fixpoint findInlinableCode (selection : Selection) (parent : Node)
    (id : Node) (init : option Node) (isVariableDeclarator : bool)
    {struct id} : option InlinableCode :=
  match init with
  | None => None
  | Some init' =>
      match loc_of init' with
      | None => None
      | Some initLoc =>
          match id with
          | Identifier (Some idLoc) name =>
              Some (newInlinableIdentifier
                      (mkSelectableIdentifier idLoc name) parent initLoc)
          | ObjectPattern idLoc properties =>
              match idLoc with
              | None => None
              | Some idLoc' =>
                  let result :=
                    forEach
                      (objectPatternCallback
                         (fun i n => findInlinableCode selection parent i n false)
                         selection init' properties)
                      properties None in
                  wrapInTopLevelPattern result isVariableDeclarator idLoc'
              end
          | ArrayPattern idLoc elements =>
              match idLoc with
              | None => None
              | Some idLoc' =>
                  let result :=
                    forEach
                      (arrayPatternCallback
                         (fun i n => findInlinableCode selection parent i n false)
                         selection init' elements)
                      elements None in
                  wrapInTopLevelPattern result isVariableDeclarator idLoc'
              end
          | _ => None
          end
      end
  end.

End FindInlinableCode.
Export FindInlinableCode.

(* ===================================================================== *)
(** ** merge-with-previous-if-statement.ts *)
(* ===================================================================== *)

Module MergeWithPreviousIfStatement.

Section Merge.

(** [ast.getStatements], a helper of the syntax tree provider: the
    statements a branch stands for. *)
Variable getStatements : Node -> list Node.

(** [ast.blockStatement(body)] builds a fresh node, which has no
    location. *)
Definition blockStatement (body : list Node) : Node := BlockStatement None body.

Definition mergeWith (branch : Node) (statements : list Node) : Node :=
  blockStatement (getStatements branch ++ statements).

(** [mergeWithIfStatement(ifStatement, node)] updates [ifStatement] in
    place and returns nothing; here it returns the updated statement.  One
    unit of [fuel] is spent per call, so that a call that would not return
    shows as [None]; so does an [ifStatement] that is no if statement,
    which the parameter's type rules out. *)
Fixpoint mergeWithIfStatement (fuel : nat) (ifStatement node : Node)
  : option Node :=
  match fuel with
  | 0 => None
  | S fuel' =>
      match ifStatement with
      | IfStatement l test consequent alternate =>
          let nodesToMerge :=
            match node with
            | IfStatement _ nodeTest nodeConsequent _ =>
                if areEqual test nodeTest then getStatements nodeConsequent
                else [node]
            | _ => [node]
            end in
          let consequent' := mergeWith consequent nodesToMerge in
          match alternate with
          | None => Some (IfStatement l test consequent' None)
          | Some alt =>
              if isIfStatement alt then
                match mergeWithIfStatement fuel' alt node with
                | Some alt' => Some (IfStatement l test consequent' (Some alt'))
                | None => None
                end
              else
                Some (IfStatement l test consequent' (Some (mergeWith alt [node])))
          end
      | _ => None
      end
  end.

End Merge.

(** The statement a call of [mergeWithIfStatement] passes to its recursive
    call, if it makes one. *)
Definition recursesInto (ifStatement : Node) : option Node :=
  match ifStatement with
  | IfStatement _ _ _ (Some alt) => if isIfStatement alt then Some alt else None
  | _ => None
  end.

(** The number of [else if] links hanging from an if statement. *)
Fixpoint elseIfChain (n : Node) : nat :=
  match n with
  | IfStatement _ _ _ (Some alt) =>
      match alt with
      | IfStatement _ _ _ _ => S (elseIfChain alt)
      | _ => 0
      end
  | _ => 0
  end.

(** The number of nodes of a tree. *)
Fixpoint nodeCount (n : Node) : nat :=
  S (match n with
     | Identifier _ _ | NumericLiteral _ _ | StringLiteral _ _
     | ThisExpression _ | OtherNode _ _ _ => 0
     | MemberExpression _ o p _ => nodeCount o + nodeCount p
     | CallExpression _ f args => nodeCount f + list_sum (map nodeCount args)
     | UnaryExpression _ _ x => nodeCount x
     | AssignmentExpression _ _ l r => nodeCount l + nodeCount r
     | ObjectExpression _ ps => list_sum (map nodeCount ps)
     | ObjectProperty _ k v _ _ => nodeCount k + nodeCount v
     | RestElement _ x => nodeCount x
     | ObjectPattern _ ps => list_sum (map nodeCount ps)
     | ArrayPattern _ es =>
         list_sum (map (fun e => match e with Some x => nodeCount x | None => 0 end) es)
     | ExpressionStatement _ e => nodeCount e
     | ReturnStatement _ x => match x with Some e => nodeCount e | None => 0 end
     | VariableDeclarator _ i x =>
         nodeCount i + match x with Some e => nodeCount e | None => 0 end
     | VariableDeclaration _ _ ds => list_sum (map nodeCount ds)
     | BlockStatement _ b => list_sum (map nodeCount b)
     | IfStatement _ t c a =>
         nodeCount t + nodeCount c
         + match a with Some e => nodeCount e | None => 0 end
     | FunctionDeclaration _ i ps b =>
         match i with Some e => nodeCount e | None => 0 end
         + list_sum (map nodeCount ps) + nodeCount b
     | Program _ b => list_sum (map nodeCount b)
     end).

End MergeWithPreviousIfStatement.
Export MergeWithPreviousIfStatement.

(* ===================================================================== *)
(** ** The two inliners that drive [findInlinableCode] *)
(* ===================================================================== *)

(** The orchestration of variable and function inlining lives in
    [inline-variable.ts] and [inline-function.ts], which are not among the
    files embedded above (of the function inliner only its test-suite is).
    This module follows the specification's component design for them. *)
Module Inliners.

(** Modelled from the spec: the error kinds of its taxonomy, with the
    redeclared-variable and exported-variable kinds of the variable inliner. *)
Inductive ErrorReason :=
| DidNotFindInlinableCode
| CantInlineRedeclaredVariable
| CantRemoveExportedVariable
| CantInlineFunctionWithMultipleReturns
| CantInlineAssignedFunctionWithoutReturn
| CantInlineAssignedFunctionWithManyStatements
| CantRemoveExportedFunction.

Definition ErrorReason_eq_dec (a b : ErrorReason) : {a = b} + {a <> b}.
Proof. decide equality. Defined.

(** Modelled from the spec: what one operation produces, "a list of (text
    range, replacement text) edits plus a single deletion range", and the
    notices it shows. *)
Record Outcome := mkOutcome {
  edits : list Modification;
  removed : option Selection;
  notices : list ErrorReason
}.

(** Modelled from the spec: a validation failure, which "short-circuit[s]
    before any edit is computed". *)
Definition failure (reason : ErrorReason) : Outcome :=
  mkOutcome [] None [reason].

(** *** Variable inliner *)

Section VariableInliner.
Variable findExportedIdNames : Node -> list string.

(** Modelled from the spec: the variable inliner's "eligibility checks, in
    order, first failure wins" and the "edits produced": absent inlinable
    code; [isRedeclared]; [isExported], which "still inlines reference sites
    but additionally reports a non-fatal warning that the declaration itself
    was kept"; no identifier to update.  [valueText] is the source text at
    [valueSelection]. *)
Definition inlineVariable (found : option InlinableCode) (valueText : string)
  : Outcome :=
  match found with
  | None => failure DidNotFindInlinableCode
  | Some inlinable =>
      if isRedeclared inlinable then failure CantInlineRedeclaredVariable
      else if negb (hasIdentifiersToUpdate inlinable)
      then failure DidNotFindInlinableCode
      else if isExported findExportedIdNames inlinable then
        mkOutcome (updateIdentifiersWith inlinable valueText) None
          [CantRemoveExportedVariable]
      else
        mkOutcome (updateIdentifiersWith inlinable valueText)
          (Some (codeToRemoveSelection inlinable)) []
  end.
End VariableInliner.

(** *** Function inliner *)

(** Modelled from the spec: the return statements of a function body,
    "counting only statements, not nested functions". *)
Fixpoint countReturnStatements (statement : Node) : nat :=
  match statement with
  | ReturnStatement _ _ => 1
  | BlockStatement _ body => list_sum (map countReturnStatements body)
  | IfStatement _ _ consequent alternate =>
      countReturnStatements consequent
      + match alternate with
        | Some a => countReturnStatements a
        | None => 0
        end
  | _ => 0
  end.

(** Modelled from the spec: the statements of the "function body". *)
Definition bodyStatements (declaration : Node) : list Node :=
  match declaration with
  | FunctionDeclaration _ _ _ (BlockStatement _ body) => body
  | _ => []
  end.

(** Modelled from the spec: the number of return statements of the function
    body. *)
Definition returnStatementsCount (declaration : Node) : nat :=
  list_sum (map countReturnStatements (bodyStatements declaration)).

(** Modelled from the spec: whether the function body's "return is ... the
    final statement". *)
Definition endsWithReturn (declaration : Node) : bool :=
  match last_entry (bodyStatements declaration) with
  | Some s => isReturnStatement s
  | None => false
  end.

(** Modelled from the spec: the shape of one reference to the function, a
    call standing as a statement, or a use "in a non-call position (assigned to
    a variable, returned, passed as a value)". *)
Inductive ReferenceShape := CalledAsStatement | UsedAsValue.

Record FunctionReference := mkFunctionReference {
  ref_selection : Selection;
  ref_shape : ReferenceShape
}.

Definition isUsedAsValue (r : FunctionReference) : bool :=
  match ref_shape r with UsedAsValue => true | CalledAsStatement => false end.

Section FunctionInliner.
(** The text that replaces one reference: the body with the call's
    arguments substituted for the parameters. *)
Variable inlinedAt : Node -> FunctionReference -> string.

(** Modelled from the spec: the function inliner's "eligibility, in
    order", then "after rewriting every reference, delete the function
    declaration unless [isExported], in which case emit
    [CantRemoveExportedFunction] as a non-fatal notice while still having
    rewritten the call sites".  [found] is the declaration at the selection,
    [references] its references in scope, [exported] whether its name is in
    the scope's export list. *)
Definition inlineFunction (found : option Node)
    (references : list FunctionReference) (exported : bool) : Outcome :=
  match found with
  | None => failure DidNotFindInlinableCode
  | Some declaration =>
      if negb (isFunctionDeclaration declaration)
      then failure DidNotFindInlinableCode
      else if 1 <? returnStatementsCount declaration
      then failure CantInlineFunctionWithMultipleReturns
      else if (returnStatementsCount declaration =? 1)
              && negb (endsWithReturn declaration)
      then failure CantInlineFunctionWithMultipleReturns
      else if existsb isUsedAsValue references
              && (1 <? List.length (bodyStatements declaration))
      then failure CantInlineAssignedFunctionWithManyStatements
      else if existsb isUsedAsValue references
              && negb (endsWithReturn declaration)
      then failure CantInlineAssignedFunctionWithoutReturn
      else
        match references with
        | [] => failure DidNotFindInlinableCode
        | _ :: _ =>
            let rewritten :=
              map (fun r => mkModification (inlinedAt declaration r)
                                           (ref_selection r))
                  references in
            if exported then mkOutcome rewritten None [CantRemoveExportedFunction]
            else mkOutcome rewritten (option_map fromAST (loc_of declaration)) []
        end
  end.
End FunctionInliner.

End Inliners.
Export Inliners.

(* ===================================================================== *)
(** ** Scopes and the names they declare *)
(* ===================================================================== *)

Module Scoping.




End Scoping.
Export Scoping.

(* ===================================================================== *)
(** ** Sample programs *)
(* ===================================================================== *)

Module Samples.

Definition span (l1 c1 l2 c2 : nat) : SourceLocation :=
  mkLoc (mkPosition l1 c1) (mkPosition l2 c2).

Definition at_ (l1 c1 l2 c2 : nat) : option SourceLocation :=
  Some (span l1 c1 l2 c2).

Definition logCall (l c : nat) (argument : Node) : Node :=
  ExpressionStatement (at_ l c l (c + 10))
    (CallExpression (at_ l c l (c + 9))
       (Identifier (at_ l c l (c + 3)) "log") [argument]).

(** {v
    const name = "Jane";
    log(name);
    function f() {
      const name = "Doe";
      log(name);
    }
    v} *)
Definition innerBlock : Node :=
  BlockStatement (at_ 3 13 6 1)
    [ VariableDeclaration (at_ 4 2 4 21) "const"
        [ VariableDeclarator (at_ 4 8 4 20)
            (Identifier (at_ 4 8 4 12) "name")
            (Some (StringLiteral (at_ 4 15 4 20) "Doe")) ];
      logCall 5 2 (Identifier (at_ 5 6 5 10) "name") ].

Definition shadowing : Node :=
  Program (at_ 1 0 6 1)
    [ VariableDeclaration (at_ 1 0 1 20) "const"
        [ VariableDeclarator (at_ 1 6 1 19)
            (Identifier (at_ 1 6 1 10) "name")
            (Some (StringLiteral (at_ 1 13 1 19) "Jane")) ];
      logCall 2 0 (Identifier (at_ 2 4 2 8) "name");
      FunctionDeclaration (at_ 3 0 6 1)
        (Some (Identifier (at_ 3 9 3 10) "f")) [] innerBlock ].

Definition outerName : SelectableIdentifier :=
  mkSelectableIdentifier (span 1 6 1 10) "name".

Definition innerOccurrence : Node := Identifier (at_ 5 6 5 10) "name".

(** The nodes that enclose the function body in [shadowing], and those that
    enclose [innerOccurrence] in the function body. *)
Definition bodyChain : list Ancestor :=
  [ mkAncestor shadowing "body" (Some 2);
    mkAncestor (FunctionDeclaration (at_ 3 0 6 1)
                  (Some (Identifier (at_ 3 9 3 10) "f")) [] innerBlock)
               "body" None ].

Definition occurrenceChain : list Ancestor :=
  [ mkAncestor innerBlock "body" (Some 1);
    mkAncestor (logCall 5 2 innerOccurrence) "expression" None;
    mkAncestor (CallExpression (at_ 5 2 5 11)
                  (Identifier (at_ 5 2 5 5) "log") [innerOccurrence])
               "arguments" (Some 0) ].

(** {v
    x = 1;
    var x = 2;
    log(x);
    v} *)
Definition assignedBefore : Node :=
  Program (at_ 1 0 3 7)
    [ ExpressionStatement (at_ 1 0 1 6)
        (AssignmentExpression (at_ 1 0 1 5) "="
           (Identifier (at_ 1 0 1 1) "x") (NumericLiteral (at_ 1 4 1 5) "1"));
      VariableDeclaration (at_ 2 0 2 10) "var"
        [ VariableDeclarator (at_ 2 4 2 9)
            (Identifier (at_ 2 4 2 5) "x")
            (Some (NumericLiteral (at_ 2 8 2 9) "2")) ];
      logCall 3 0 (Identifier (at_ 3 4 3 5) "x") ].

Definition varX : SelectableIdentifier :=
  mkSelectableIdentifier (span 2 4 2 5) "x".

(** {v
    const key = "id";
    log(obj[key]);
    v} *)
Definition computedAccess : Node :=
  MemberExpression (at_ 2 4 2 12)
    (Identifier (at_ 2 4 2 7) "obj") (Identifier (at_ 2 8 2 11) "key") true.

Definition computedMember : Node :=
  Program (at_ 1 0 2 14)
    [ VariableDeclaration (at_ 1 0 1 17) "const"
        [ VariableDeclarator (at_ 1 6 1 16)
            (Identifier (at_ 1 6 1 9) "key")
            (Some (StringLiteral (at_ 1 12 1 16) "id")) ];
      logCall 2 0 computedAccess ].

Definition constKey : SelectableIdentifier :=
  mkSelectableIdentifier (span 1 6 1 9) "key".

(** The ancestors of the [key] in [obj[key]]. *)
Definition computedAccessChain : list Ancestor :=
  [ mkAncestor computedMember "body" (Some 1);
    mkAncestor (logCall 2 0 computedAccess) "expression" None;
    mkAncestor (CallExpression (at_ 2 0 2 9)
                  (Identifier (at_ 2 0 2 3) "log") [computedAccess])
               "arguments" (Some 0);
    mkAncestor computedAccess "property" None ].


(** {v const { first, second } = user; v} with the location of [second]
    stretched over that of [first], so that a cursor on [first] lies inside
    both properties. *)
Definition firstProperty : Node :=
  ObjectProperty (at_ 1 8 1 13)
    (Identifier (at_ 1 8 1 13) "first") (Identifier (at_ 1 8 1 13) "first")
    false true.

Definition secondProperty : Node :=
  ObjectProperty (at_ 1 8 1 21)
    (Identifier (at_ 1 15 1 21) "second") (Identifier (at_ 1 15 1 21) "second")
    false true.

Definition overlappingPattern : list Node := [firstProperty; secondProperty].

Definition userInit : Node := Identifier (at_ 1 26 1 30) "user".

Definition overlappingScope : Node :=
  Program (at_ 1 0 2 11)
    [ VariableDeclaration (at_ 1 0 1 31) "const"
        [ VariableDeclarator (at_ 1 6 1 30)
            (ObjectPattern (at_ 1 6 1 23) overlappingPattern) (Some userInit) ];
      logCall 2 0 (Identifier (at_ 2 4 2 10) "second") ].


(** {v
    const { name } = getUser();
    log(name);
    v} *)
Definition nameProperty : Node :=
  ObjectProperty (at_ 1 8 1 12)
    (Identifier (at_ 1 8 1 12) "name") (Identifier (at_ 1 8 1 12) "name")
    false true.

Definition getUserCall : Node :=
  CallExpression (at_ 1 17 1 26) (Identifier (at_ 1 17 1 24) "getUser") [].

Definition fromCall : Node :=
  Program (at_ 1 0 2 10)
    [ VariableDeclaration (at_ 1 0 1 27) "const"
        [ VariableDeclarator (at_ 1 6 1 26)
            (ObjectPattern (at_ 1 6 1 14) [nameProperty]) (Some getUserCall) ];
      logCall 2 0 (Identifier (at_ 2 4 2 8) "name") ].

(** {v
    const { name, ...others } = user;
    log(name);
    v} *)
Definition othersRest : Node :=
  RestElement (at_ 1 14 1 23) (Identifier (at_ 1 17 1 23) "others").

Definition withRest : Node :=
  Program (at_ 1 0 2 10)
    [ VariableDeclaration (at_ 1 0 1 33) "const"
        [ VariableDeclarator (at_ 1 6 1 32)
            (ObjectPattern (at_ 1 6 1 25) [nameProperty; othersRest])
            (Some (Identifier (at_ 1 28 1 32) "user")) ];
      logCall 2 0 (Identifier (at_ 2 4 2 8) "name") ].

(** {v
    const { pair: [head, tail], ...others } = user;
    log(head);
    v} *)
Definition headElement : Node := Identifier (at_ 1 15 1 19) "head".
Definition tailElement : Node := Identifier (at_ 1 21 1 25) "tail".

Definition pairProperty : Node :=
  ObjectProperty (at_ 1 8 1 26)
    (Identifier (at_ 1 8 1 12) "pair")
    (ArrayPattern (at_ 1 14 1 26) [Some headElement; Some tailElement])
    false false.

Definition othersAfterPair : Node :=
  RestElement (at_ 1 28 1 37) (Identifier (at_ 1 31 1 37) "others").

Definition pairPattern : Node :=
  ObjectPattern (at_ 1 6 1 39) [pairProperty; othersAfterPair].

Definition userAfterPair : Node := Identifier (at_ 1 42 1 46) "user".

Definition withArrayValue : Node :=
  Program (at_ 1 0 2 10)
    [ VariableDeclaration (at_ 1 0 1 47) "const"
        [ VariableDeclarator (at_ 1 6 1 46) pairPattern (Some userAfterPair) ];
      logCall 2 0 (Identifier (at_ 2 4 2 8) "head") ].

(** {v
    if (a) { f(); } else if (b) { g(); } else { h(); }
    log(done);
    v} *)
Definition callOf (name : string) : Node :=
  ExpressionStatement None (CallExpression None (Identifier None name) []).

Definition elseIfLadder : Node :=
  IfStatement (at_ 1 0 1 50) (Identifier (at_ 1 4 1 5) "a")
    (BlockStatement None [callOf "f"])
    (Some (IfStatement (at_ 1 21 1 50) (Identifier (at_ 1 25 1 26) "b")
             (BlockStatement None [callOf "g"])
             (Some (BlockStatement None [callOf "h"])))).

(** The leaf for [name] in [withRest], the composite for its property, and
    an export list that names it. *)
Definition nameLeaf : InlinableCode :=
  newInlinableIdentifier (mkSelectableIdentifier (span 1 8 1 12) "name")
    withRest (span 1 8 1 12).

Definition nameSelectable : SelectableObjectProperty :=
  mkSelectableObjectProperty nameProperty (span 1 8 1 12)
    (Identifier (at_ 1 8 1 12) "name") (span 1 8 1 12)
    (Identifier (at_ 1 8 1 12) "name") (span 1 8 1 12).

Definition nameComposite : InlinableCode :=
  InlinableObjectPattern nameLeaf "user" nameSelectable true None None.

Definition exportsName (scope : Node) : list string := ["name"].

(** From the test-suite of the function inliner:
    {v
    function getFirstName(name) {
      if (!name) return "unknown";
      return name.split(" ")[0];
    }
    v} *)
Definition returnUnknown : Node :=
  ReturnStatement None (Some (StringLiteral None "unknown")).

Definition notName : Node := UnaryExpression None "!" (Identifier None "name").

Definition twoReturns : Node :=
  FunctionDeclaration (at_ 1 0 4 1)
    (Some (Identifier (at_ 1 9 1 21) "getFirstName"))
    [Identifier (at_ 1 22 1 26) "name"]
    (BlockStatement (at_ 1 28 4 1)
       [ IfStatement None notName returnUnknown None;
         ReturnStatement None
           (Some (MemberExpression None
                    (CallExpression None
                       (MemberExpression None (Identifier None "name")
                          (Identifier None "split") false)
                       [StringLiteral None " "])
                    (NumericLiteral None "0") true)) ]).

(** {v
    function getFirstName(name) {
      if (!name) {
        return "unknown";
      }
    }
    v} *)
Definition implicitReturn : Node :=
  FunctionDeclaration (at_ 1 0 5 1)
    (Some (Identifier (at_ 1 9 1 21) "getFirstName"))
    [Identifier (at_ 1 22 1 26) "name"]
    (BlockStatement (at_ 1 28 5 1)
       [ IfStatement None notName (BlockStatement None [returnUnknown]) None ]).

(** [const firstName = getFirstName(name);] and [getFirstName(name);] *)
Definition assignedCall : FunctionReference :=
  mkFunctionReference (mkSelection (mkPosition 7 20) (mkPosition 7 38)) UsedAsValue.

Definition plainCall : FunctionReference :=
  mkFunctionReference (mkSelection (mkPosition 9 0) (mkPosition 9 18))
    CalledAsStatement.

(** {v
    function sayHello(name) {
      console.log(name);
    }

    sayHello("John");

    export { sayHello }
    v} *)
Definition sayHello : Node :=
  FunctionDeclaration (at_ 1 0 3 1)
    (Some (Identifier (at_ 1 9 1 17) "sayHello"))
    [Identifier (at_ 1 18 1 22) "name"]
    (BlockStatement (at_ 1 24 3 1)
       [ ExpressionStatement None
           (CallExpression None
              (MemberExpression None (Identifier None "console")
                 (Identifier None "log") false)
              [Identifier None "name"]) ]).

Definition sayHelloCall : FunctionReference :=
  mkFunctionReference (mkSelection (mkPosition 5 0) (mkPosition 5 17))
    CalledAsStatement.

Definition bodyWithJohn (declaration : Node) (r : FunctionReference) : string :=
  "console.log(John);".

(** What the decomposition builds for [head] in [withArrayValue]: the leaf,
    the array-pattern composite around it and the object-pattern composite
    around that. *)
Definition pairSelectable : SelectableObjectProperty :=
  mkSelectableObjectProperty pairProperty (span 1 8 1 26)
    (Identifier (at_ 1 8 1 12) "pair") (span 1 8 1 12)
    (ArrayPattern (at_ 1 14 1 26) [Some headElement; Some tailElement])
    (span 1 14 1 26).

Definition headLeaf : InlinableCode :=
  newInlinableIdentifier (mkSelectableIdentifier (span 1 15 1 19) "head")
    withArrayValue (span 1 8 1 26).

Definition pairComposite : InlinableCode :=
  InlinableObjectPattern
    (InlinableArrayPattern headLeaf 0
       (mkSelectable headElement (span 1 15 1 19))
       None (Some (mkSelectable tailElement (span 1 21 1 25))))
    "user" pairSelectable true None None.

(** The helper of the syntax tree provider, as the samples take it: the
    statements of a block, or the statement alone. *)
Definition statementsOf (n : Node) : list Node :=
  match n with
  | BlockStatement _ body => body
  | _ => [n]
  end.

(** {v
    const name = "Jane";
    log(name);
    function f() {
      const { name } = user;
      log(name);
    }
    v} *)
Definition destructuredName : Node := Identifier (at_ 4 10 4 14) "name".

Definition destructuringBlock : Node :=
  BlockStatement (at_ 3 13 6 1)
    [ VariableDeclaration (at_ 4 2 4 24) "const"
        [ VariableDeclarator (at_ 4 8 4 23)
            (ObjectPattern (at_ 4 8 4 16)
               [ ObjectProperty (at_ 4 10 4 14)
                   (Identifier (at_ 4 10 4 14) "name") destructuredName
                   false true ])
            (Some (Identifier (at_ 4 19 4 23) "user")) ];
      logCall 5 2 innerOccurrence ].

Definition destructuringFunction : Node :=
  FunctionDeclaration (at_ 3 0 6 1)
    (Some (Identifier (at_ 3 9 3 10) "f")) [] destructuringBlock.

Definition destructuring : Node :=
  Program (at_ 1 0 6 1)
    [ VariableDeclaration (at_ 1 0 1 20) "const"
        [ VariableDeclarator (at_ 1 6 1 19)
            (Identifier (at_ 1 6 1 10) "name")
            (Some (StringLiteral (at_ 1 13 1 19) "Jane")) ];
      logCall 2 0 (Identifier (at_ 2 4 2 8) "name");
      destructuringFunction ].



End Samples.

(* ===================================================================== *)
(** ** The specification's reading of [isRedeclared] *)
(* ===================================================================== *)

Module AsSpecified.

(** The assignment at [l] begins where the declared identifier ends, or
    later. *)
Definition isLaterAssignment (id : SelectableIdentifier) (v : Visit) : bool :=
  match fst v with
  | AssignmentExpression (Some l) _ lhs _ =>
      areEqual (si_node id) lhs && pos_leb (loc_end (si_loc id)) (loc_start l)
  | _ => false
  end.

(** "true iff the binding's identifier appears as the left side of a later
    assignment within its scope". *)
Definition isRedeclaredAsSpecified (id : SelectableIdentifier) (scope : Node)
  : bool :=
  existsb (isLaterAssignment id) (traverseNode scope).

End AsSpecified.
Export AsSpecified.

(* ===================================================================== *)
(** ** Eligible properties of an object pattern *)
(* ===================================================================== *)

Module Eligibility.

Section Candidates.
Variable selection : Selection.
Variable parent : Node.
Variable init : Node.

(** What the decomposition finds in the value of a property, taken as a
    declaration of its own. *)
Definition childOfProperty (property : Node) : option InlinableCode :=
  match property with
  | ObjectProperty _ _ value _ _ =>
      findInlinableCode selection parent value (Some property) false
  | _ => None
  end.

(** A property is structurally eligible when it contains the selection,
    is no rest element, is a selectable object property, holds inlinable
    code of its own and the initializer has a name that is not empty. *)
Definition structurallyEligible (property : Node) : bool :=
  isInsideNode selection property
  && negb (isRestElement property)
  && isSelectableObjectProperty property
  && isSome (childOfProperty property)
  && isSome (truthyName (getInitName init)).

(** The last candidate of a list, in the order of the list; [index] is
    the position of the head. *)
Fixpoint lastCandidate (A B : Type) (candidate : A -> nat -> option B)
    (index : nat) (items : list A) : option B :=
  match items with
  | [] => None
  | item :: rest =>
      match lastCandidate candidate (S index) rest with
      | Some c => Some c
      | None => candidate item index
      end
  end.

(** The composite built for an eligible property at [index]. *)
Definition objectPatternCandidate (properties : list Node)
    (property : Node) (index : nat) : option InlinableCode :=
  if structurallyEligible property then
    match asSelectableObjectProperty property,
          childOfProperty property, truthyName (getInitName init) with
    | Some selectable, Some child, Some initName =>
        Some (newInlinableObjectPattern child initName selectable
                (existsb isRestElement properties)
                (itemBefore properties index) (itemAfter properties index))
    | _, _, _ => None
    end
  else None.
(** An element of an array pattern is structurally eligible when its slot
    is filled, it contains the selection, is selectable and holds inlinable
    code of its own. *)
Definition elementEligible (slot : option Node) : bool :=
  match slot with
  | Some element =>
      isInsideNode selection element
      && isSelectableNode element
      && isSome (findInlinableCode selection parent element (Some init) false)
  | None => false
  end.

(** The composite built for an eligible element at [index]. *)
Definition arrayPatternCandidate (elements : list (option Node))
    (slot : option Node) (index : nat) : option InlinableCode :=
  if elementEligible slot then
    match slot with
    | Some element =>
        match asSelectableNode element,
              findInlinableCode selection parent element (Some init) false with
        | Some selectable, Some child =>
            Some (newInlinableArrayPattern child index selectable
                    (flatten (itemBefore elements index))
                    (flatten (itemAfter elements index)))
        | _, _ => None
        end
    | None => None
    end
  else None.
End Candidates.

(** The property a decomposition of an object pattern settled on. *)
Definition selectedProperty (c : InlinableCode) : option Node :=
  match c with
  | InlinableObjectPattern _ _ property _ _ _ => Some (sop_node property)
  | InlinableTopLevelPattern (InlinableObjectPattern _ _ property _ _ _) _ =>
      Some (sop_node property)
  | _ => None
  end.

End Eligibility.
Export Eligibility.

(* ===================================================================== *)
(** ** More sample programs *)
(* ===================================================================== *)

Module MoreSamples.

Import Samples.

(** {v
    const { a: { b } } = obj;
    log(b);
    v} *)
Definition bProperty : Node :=
  ObjectProperty (at_ 1 13 1 14)
    (Identifier (at_ 1 13 1 14) "b") (Identifier (at_ 1 13 1 14) "b") false true.

Definition aProperty : Node :=
  ObjectProperty (at_ 1 8 1 16)
    (Identifier (at_ 1 8 1 9) "a") (ObjectPattern (at_ 1 11 1 16) [bProperty])
    false false.

Definition nestedPattern : Node := ObjectPattern (at_ 1 6 1 18) [aProperty].

Definition objInit : Node := Identifier (at_ 1 21 1 24) "obj".

Definition nested : Node :=
  Program (at_ 1 0 2 7)
    [ VariableDeclaration (at_ 1 0 1 25) "const"
        [ VariableDeclarator (at_ 1 6 1 24) nestedPattern (Some objInit) ];
      logCall 2 0 (Identifier (at_ 2 4 2 5) "b") ].

Definition bLeaf : InlinableCode :=
  newInlinableIdentifier (mkSelectableIdentifier (span 1 13 1 14) "b")
    nested (span 1 13 1 14).

Definition bSelectable : SelectableObjectProperty :=
  mkSelectableObjectProperty bProperty (span 1 13 1 14)
    (Identifier (at_ 1 13 1 14) "b") (span 1 13 1 14)
    (Identifier (at_ 1 13 1 14) "b") (span 1 13 1 14).

Definition aSelectable : SelectableObjectProperty :=
  mkSelectableObjectProperty aProperty (span 1 8 1 16)
    (Identifier (at_ 1 8 1 9) "a") (span 1 8 1 9)
    (ObjectPattern (at_ 1 11 1 16) [bProperty]) (span 1 11 1 16).

Definition nestedComposite : InlinableCode :=
  InlinableObjectPattern
    (InlinableObjectPattern bLeaf "a" bSelectable false None None)
    "obj" aSelectable false None None.

(** {v
    const [, second] = pair;
    log(second);
    v} *)
Definition secondElement : Node := Identifier (at_ 1 9 1 15) "second".

Definition holedElements : list (option Node) := [None; Some secondElement].

Definition pairInit : Node := Identifier (at_ 1 19 1 23) "pair".

Definition holed : Node :=
  Program (at_ 1 0 2 12)
    [ VariableDeclaration (at_ 1 0 1 24) "const"
        [ VariableDeclarator (at_ 1 6 1 23)
            (ArrayPattern (at_ 1 6 1 16) holedElements) (Some pairInit) ];
      logCall 2 0 (Identifier (at_ 2 4 2 10) "second") ].

Definition secondLeaf : InlinableCode :=
  newInlinableIdentifier (mkSelectableIdentifier (span 1 9 1 15) "second")
    holed (span 1 19 1 23).

Definition secondComposite : InlinableCode :=
  InlinableTopLevelPattern
    (InlinableArrayPattern secondLeaf 1
       (mkSelectable secondElement (span 1 9 1 15)) None None)
    (span 1 6 1 16).

(** {v
    const { name } = user;
    log(name);
    v} *)
Definition userOnly : Node := Identifier (at_ 1 17 1 21) "user".

Definition onlyName : Node :=
  Program (at_ 1 0 2 10)
    [ VariableDeclaration (at_ 1 0 1 22) "const"
        [ VariableDeclarator (at_ 1 6 1 21)
            (ObjectPattern (at_ 1 6 1 14) [nameProperty]) (Some userOnly) ];
      logCall 2 0 (Identifier (at_ 2 4 2 8) "name") ].

(** {v
    const flag = ready;
    log(!flag);
    send({ flag });
    log(flag);
    v} *)
Definition flagUses : Node :=
  Program (at_ 1 0 4 10)
    [ VariableDeclaration (at_ 1 0 1 19) "const"
        [ VariableDeclarator (at_ 1 6 1 18)
            (Identifier (at_ 1 6 1 10) "flag")
            (Some (Identifier (at_ 1 13 1 18) "ready")) ];
      logCall 2 0 (UnaryExpression (at_ 2 4 2 9) "!" (Identifier (at_ 2 5 2 9) "flag"));
      ExpressionStatement (at_ 3 0 3 15)
        (CallExpression (at_ 3 0 3 14) (Identifier (at_ 3 0 3 4) "send")
           [ ObjectExpression (at_ 3 5 3 13)
               [ ObjectProperty (at_ 3 7 3 11)
                   (Identifier (at_ 3 7 3 11) "flag")
                   (Identifier (at_ 3 7 3 11) "flag") false true ] ]);
      logCall 4 0 (Identifier (at_ 4 4 4 8) "flag") ].

Definition flagId : SelectableIdentifier :=
  mkSelectableIdentifier (span 1 6 1 10) "flag".

Definition flagLeaf : InlinableCode :=
  newInlinableIdentifier flagId flagUses (span 1 13 1 18).

(** The array pattern [[head, tail]] of [withArrayValue], standing as the
    value of the property [pair]. *)
Definition pairElements : list (option Node) := [Some headElement; Some tailElement].

End MoreSamples.

(* ===================================================================== *)
(** ** Notions used to state further properties of the code *)
(* ===================================================================== *)

Module Coverage.

(** Whether the character [c] occurs in [s]. *)
Fixpoint occurs (c : ascii) (s : string) : bool :=
  match s with
  | EmptyString => false
  | String d rest => Ascii.eqb d c || occurs c rest
  end.

Definition dot : string := ".".
Definition colon : string := ":".

(** The member access [base.p1.p2...pn], none of it computed. *)
Definition memberChain (base : Node) (properties : list string) : Node :=
  fold_left (fun object p => MemberExpression None object (Identifier None p) false)
            properties base.

(** The identifier leaf at the bottom of an inlinable. *)
Fixpoint leafOf (c : InlinableCode) : InlinableCode :=
  match c with
  | InlinableIdentifier _ _ _ _ => c
  | SingleDeclaration child | MultipleDeclarations child _ _
  | InlinableObjectPattern child _ _ _ _ _
  | InlinableArrayPattern child _ _ _ _
  | InlinableTopLevelPattern child _ => leafOf child
  end.

(** The text a composite hands down to its leaf: the composite of an object
    pattern and that of an array pattern call their child's
    [updateIdentifiersWith] with the qualified text, the other composites with
    the text they were given. *)
Fixpoint textAtLeaf (c : InlinableCode) (inlinedCode : string) : string :=
  match c with
  | InlinableIdentifier _ _ _ _ => inlinedCode
  | SingleDeclaration child | MultipleDeclarations child _ _
  | InlinableTopLevelPattern child _ => textAtLeaf child inlinedCode
  | InlinableObjectPattern child initName _ _ _ _ =>
      textAtLeaf child (prependObjectValueWithInitName initName inlinedCode)
  | InlinableArrayPattern child index _ _ _ =>
      textAtLeaf child (inlinedCode ++ "[" ++ showIndex index ++ "]")%string
  end.

(** The element a decomposition of an array pattern settled on, and its
    position. *)
Definition selectedElement (c : InlinableCode) : option (Node * nat) :=
  match c with
  | InlinableArrayPattern _ index element _ _ => Some (sn_node element, index)
  | InlinableTopLevelPattern (InlinableArrayPattern _ index element _ _) _ =>
      Some (sn_node element, index)
  | _ => None
  end.

(** The links of an [if / else if] ladder, each with its test and its
    consequent, and the final [else] if there is one. *)
Fixpoint ladderLinks (n : Node) : list (Node * Node) :=
  match n with
  | IfStatement _ test consequent alternate =>
      (test, consequent)
        :: match alternate with
           | Some alt =>
               match alt with
               | IfStatement _ _ _ _ => ladderLinks alt
               | _ => []
               end
           | None => []
           end
  | _ => []
  end.

Fixpoint finalElse (n : Node) : option Node :=
  match n with
  | IfStatement _ _ _ (Some alt) =>
      match alt with
      | IfStatement _ _ _ _ => finalElse alt
      | _ => Some alt
      end
  | _ => None
  end.

(** The locations of the if statements of a ladder. *)
Fixpoint ladderLocs (n : Node) : list (option SourceLocation) :=
  match n with
  | IfStatement l _ _ alternate =>
      l :: match alternate with
           | Some alt =>
               match alt with
               | IfStatement _ _ _ _ => ladderLocs alt
               | _ => []
               end
           | None => []
           end
  | _ => []
  end.

(** The branches of a ladder: the consequents, then the final [else]. *)
Definition branches (n : Node) : list Node :=
  map snd (ladderLinks n)
  ++ match finalElse n with Some e => [e] | None => [] end.

(** What [mergeWithIfStatement] merges into the consequent of a link with
    test [test]. *)
Definition nodesToMergeInto (getStatements : Node -> list Node)
    (test node : Node) : list Node :=
  match node with
  | IfStatement _ nodeTest nodeConsequent _ =>
      if areEqual test nodeTest then getStatements nodeConsequent else [node]
  | _ => [node]
  end.

(** What the reference-collection pass records for an occurrence at [l]
    under the ancestor entry [parent]. *)
Definition referenceAt (id : SelectableIdentifier) (l : SourceLocation)
    (parent : Ancestor) : IdentifierToReplace :=
  mkIdentifierToReplace l
    (isUnaryExpression (anc_node parent))
    (if isObjectProperty (anc_node parent) && isShorthand (anc_node parent)
     then Some (si_name id) else None).

(** The leaf of whatever [findInlinableCode] returns for the binding shape
    [id] is built for an identifier of [id], over the scope [parent]. *)
Definition leafIsInPattern (selection : Selection) (parent id : Node) : Prop :=
  forall init isVariableDeclarator c,
    findInlinableCode selection parent id init isVariableDeclarator = Some c ->
    exists leafId value chain,
      leafOf c
      = InlinableIdentifier leafId parent value
          (computeIdentifiersToReplace leafId parent)
      /\ Reaches id chain (si_node leafId).

End Coverage.
Export Coverage.

(* ===================================================================== *)
(** ** Facts about the traversal *)
(* ===================================================================== *)

Section TraversalFacts.

Lemma descendAll_indexed (visit : list Ancestor -> Node -> list Visit)
    (ancestors : list Ancestor) (parent : Node) (key : string) :
  forall l i,
    descendAll visit ancestors parent key i l
    = flat_map (fun c => visit (ancestors ++ [entryOf parent c]) (snd c))
               (indexed key i l).
Proof.
  induction l as [|c rest IH]; intros i; simpl; [reflexivity|].
  now rewrite IH.
Qed.

Lemma descendSlots_indexed (visit : list Ancestor -> Node -> list Visit)
    (ancestors : list Ancestor) (parent : Node) (key : string) :
  forall l i,
    descendSlots visit ancestors parent key i l
    = flat_map (fun c => visit (ancestors ++ [entryOf parent c]) (snd c))
               (indexedSlots key i l).
Proof.
  induction l as [|[c|] rest IH]; intros i; simpl; [reflexivity| |apply IH].
  now rewrite IH.
Qed.

Lemma descendOpt_field (visit : list Ancestor -> Node -> list Visit)
    (ancestors : list Ancestor) (parent : Node) (key : string) (c : option Node) :
  descendOpt visit ancestors parent key c
  = flat_map (fun c => visit (ancestors ++ [entryOf parent c]) (snd c))
             (fieldOpt key c).
Proof.
  destruct c; simpl; unfold descend, entryOf; simpl;
    [now rewrite app_nil_r | reflexivity].
Qed.

Lemma descend_field (visit : list Ancestor -> Node -> list Visit)
    (ancestors : list Ancestor) (parent : Node) (key : string) (c : Node) :
  descend visit ancestors parent key c
  = flat_map (fun c => visit (ancestors ++ [entryOf parent c]) (snd c))
             (field key c).
Proof.
  simpl; unfold descend, entryOf; simpl. now rewrite app_nil_r.
Qed.

(** The traversal enters a node, then each of its children in turn with the
    node appended to the ancestors. *)
Lemma traverseFrom_children (ancestors : list Ancestor) (n : Node) :
  traverseFrom ancestors n
  = (n, ancestors)
      :: flat_map (fun c => traverseFrom (ancestors ++ [entryOf n c]) (snd c))
                  (children n).
Proof.
  destruct n; cbn [traverseFrom children]; f_equal;
    rewrite ?flat_map_app, ?descend_field, ?descendOpt_field,
            ?descendAll_indexed, ?descendSlots_indexed;
    reflexivity.
Qed.

Lemma indexed_In (key : string) (c : Child) :
  forall l i, In c (indexed key i l) -> In (snd c) l.
Proof.
  induction l as [|x rest IH]; intros i H; simpl in *; [contradiction|].
  destruct H as [E|H]; [left; now subst | right; eauto].
Qed.

Lemma indexedSlots_In (key : string) (c : Child) :
  forall l i, In c (indexedSlots key i l) -> In (Some (snd c)) l.
Proof.
  induction l as [|[x|] rest IH]; intros i H; simpl in *.
  - contradiction.
  - destruct H as [E|H]; [left; now subst | right; eauto].
  - right; eauto.
Qed.

(** Induction on a tree through the children of its nodes. *)
Lemma Node_children_ind (P : Node -> Prop) :
  (forall n, (forall c, In c (children n) -> P (snd c)) -> P n) ->
  forall n, P n.
Proof.
  intros step.
  fix IH 1.
  intros n. apply step.
  assert (many : forall l, Forall P l).
  { induction l; constructor; [apply IH | assumption]. }
  assert (slots : forall l : list (option Node),
             Forall (fun o => match o with Some x => P x | None => True end) l).
  { induction l as [|[x|] l IHl]; constructor; try assumption; [apply IH | exact I]. }
  destruct n; cbn [children]; intros c Hc;
    repeat (apply in_app_or in Hc; destruct Hc as [Hc|Hc]);
    try contradiction;
    try (destruct Hc as [<-|[]]; apply IH);
    try (apply indexed_In in Hc; exact (proj1 (Forall_forall _ _) (many _) _ Hc));
    try (apply indexedSlots_In in Hc;
         exact (proj1 (Forall_forall _ _) (slots _) _ Hc)).
  all: try (destruct argument; [destruct Hc as [<-|[]]; apply IH | contradiction]).
  all: try (destruct init; [destruct Hc as [<-|[]]; apply IH | contradiction]).
  all: try (destruct alternate; [destruct Hc as [<-|[]]; apply IH | contradiction]).
  all: try (destruct id; [destruct Hc as [<-|[]]; apply IH | contradiction]).
Qed.

End TraversalFacts.

Section ReachesFacts.

Lemma Reaches_trans (a b c : Node) (ch1 ch2 : list Ancestor) :
  Reaches a ch1 b -> Reaches b ch2 c -> Reaches a (ch1 ++ ch2) c.
Proof.
  intros Hab Hbc. induction Hbc as [|chain p x Hbp IH Hin].
  - now rewrite app_nil_r.
  - rewrite app_assoc. now apply Reaches_child.
Qed.

Lemma Reaches_one (p : Node) (c : Child) :
  In c (children p) -> Reaches p [entryOf p c] (snd c).
Proof.
  intros Hin. change [entryOf p c] with ([] ++ [entryOf p c]).
  apply Reaches_child; [constructor | assumption].
Qed.


Lemma head_visit (ancestors : list Ancestor) (n : Node) :
  In (n, ancestors) (traverseFrom ancestors n).
Proof. rewrite traverseFrom_children. now left. Qed.

(** Every call of the handler is for a node of the tree, with the nodes that
    enclose it as ancestors. *)
Lemma visit_Reaches (n : Node) :
  forall ancestors v,
    In v (traverseFrom ancestors n) ->
    exists chain, snd v = ancestors ++ chain /\ Reaches n chain (fst v).
Proof.
  induction n as [n IH] using Node_children_ind.
  intros ancestors v Hv. rewrite traverseFrom_children in Hv.
  destruct Hv as [<-|Hv].
  - exists []. simpl. rewrite app_nil_r. split; [reflexivity | constructor].
  - apply in_flat_map in Hv. destruct Hv as (c & Hc & Hv).
    destruct (IH c Hc _ _ Hv) as (chain & E & R).
    exists ([entryOf n c] ++ chain). split.
    + now rewrite E, <- app_assoc.
    + eapply Reaches_trans; [apply Reaches_one; eassumption | exact R].
Qed.

Lemma visit_child (root : Node) :
  forall ancestors p chain c,
    In (p, chain) (traverseFrom ancestors root) ->
    In c (children p) ->
    In (snd c, chain ++ [entryOf p c]) (traverseFrom ancestors root).
Proof.
  induction root as [root IH] using Node_children_ind.
  intros ancestors p chain c Hp Hc. rewrite traverseFrom_children in Hp |- *.
  right. apply in_flat_map. destruct Hp as [E|Hp].
  - inversion E; subst. exists c. split; [assumption | apply head_visit].
  - apply in_flat_map in Hp. destruct Hp as (c' & Hc' & Hp).
    exists c'. split; [assumption|]. now apply IH.
Qed.

(** Every node of the tree is entered, with the nodes that enclose it as
    ancestors. *)
Lemma Reaches_visit (root n : Node) (chain : list Ancestor) :
  Reaches root chain n ->
  forall ancestors, In (n, ancestors ++ chain) (traverseFrom ancestors root).
Proof.
  induction 1 as [|chain p c Hp IH Hin]; intros ancestors.
  - rewrite app_nil_r. apply head_visit.
  - rewrite app_assoc. now apply visit_child.
Qed.

Lemma traverseNode_Reaches (root n : Node) (chain : list Ancestor) :
  In (n, chain) (traverseNode root) <-> Reaches root chain n.
Proof.
  split.
  - intros H. destruct (visit_Reaches _ _ _ H) as (ch & E & R).
    simpl in E, R. now subst.
  - intros H. exact (Reaches_visit H []).
Qed.

End ReachesFacts.

(* ===================================================================== *)
(** ** Reference collection *)
(* ===================================================================== *)

Section ReferenceCollection.

Lemma areEqual_identifier (l : option SourceLocation) (name : string) (n : Node) :
  areEqual (Identifier l name) n = true <-> exists l', n = Identifier l' name.
Proof.
  split.
  - destruct n; simpl; try discriminate.
    intros E. apply String.eqb_eq in E. subst. eauto.
  - intros [l' ->]. simpl. apply String.eqb_refl.
Qed.



(** What is collected is what the visits push, in the order of the visits. *)
Lemma collected_iff (id : SelectableIdentifier) (scope : Node)
    (r : IdentifierToReplace) :
  In r (computeIdentifiersToReplace id scope)
  <-> exists n chain, Reaches scope chain n /\ enterReference id (n, chain) = Some r.
Proof.
  unfold computeIdentifiersToReplace. rewrite in_flat_map. split.
  - intros ([n chain] & Hv & Hr). exists n, chain.
    split; [now apply traverseNode_Reaches|].
    destruct (enterReference id (n, chain)); simpl in Hr;
      [destruct Hr as [->|[]]; reflexivity | contradiction].
  - intros (n & chain & Hv & Hr). exists (n, chain).
    split; [now apply traverseNode_Reaches|]. rewrite Hr. now left.
Qed.

End ReferenceCollection.

Section Redeclaration.

Variable id : SelectableIdentifier.






End Redeclaration.


Import Samples.

Ltac in_list := vm_compute; repeat (first [left; reflexivity | right]).


(** In the sample with a destructuring redeclaration, neither the inner
    declaration nor the inner use is collected. *)
Example destructuring_collects_outer_occurrence_only :
  map loc (computeIdentifiersToReplace outerName destructuring) = [span 2 4 2 8].
Proof. reflexivity. Qed.

(** In the sample only the occurrence of the outer scope is collected. *)
Example shadowing_collects_outer_occurrence_only :
  map loc (computeIdentifiersToReplace outerName shadowing) = [span 2 4 2 8].
Proof. reflexivity. Qed.

(* ===================================================================== *)
(** ** [isRedeclared] *)
(* ===================================================================== *)

(** The claim C2 as the specification words it fails: an assignment that
    stands before the declaration makes [isRedeclared] true as well. *)
Lemma isRedeclared_counts_an_earlier_assignment :
  isRedeclared (newInlinableIdentifier varX assignedBefore (span 2 8 2 9)) = true
  /\ isRedeclaredAsSpecified varX assignedBefore = false.
Proof. split; reflexivity. Qed.

(** C2, amended.  [isRedeclared] of an identifier leaf is true exactly when
    some assignment expression anywhere in the scope, before or after the
    declaration, has an identifier of the binding's name as its left side. *)
Theorem isRedeclared_iff_assigned_anywhere
    (id : SelectableIdentifier) (scope : Node) (valueLoc : SourceLocation) :
  isRedeclared (newInlinableIdentifier id scope valueLoc) = true
  <-> exists chain l operator l' rhs,
        Reaches scope chain
          (AssignmentExpression l operator (Identifier l' (si_name id)) rhs).
Proof.
  simpl. unfold identifierIsRedeclared. rewrite existsb_exists. split.
  - intros ([n chain] & Hv & Hassign). apply traverseNode_Reaches in Hv.
    unfold enterAssignment in Hassign. simpl in Hassign.
    destruct n as [| | | | | | | |? ? lhs ?| | | | | | | | | | | | |];
      try discriminate.
    destruct lhs; try discriminate.
    apply String.eqb_eq in Hassign. rewrite Hassign. eauto 6.
  - intros (chain & l & operator & l' & rhs & Hv).
    eexists (_, chain). split; [apply traverseNode_Reaches; eassumption|].
    unfold enterAssignment. simpl. apply String.eqb_refl.
Qed.

(* ===================================================================== *)
(** ** Key and property positions *)
(* ===================================================================== *)

(** The claim C3 as stated fails: the [key] in [obj[key]], a computed
    access, is entered with the member expression as its parent and is not
    collected; in the sample no reference is collected at all. *)
Lemma computed_access_is_not_collected :
  Reaches computedMember computedAccessChain (Identifier (at_ 2 8 2 11) "key")
  /\ last_entry computedAccessChain
     = Some (mkAncestor
               (MemberExpression (at_ 2 4 2 12) (Identifier (at_ 2 4 2 7) "obj")
                  (Identifier (at_ 2 8 2 11) "key") true)
               "property" None)
  /\ enterReference constKey (Identifier (at_ 2 8 2 11) "key", computedAccessChain)
     = None
  /\ computeIdentifiersToReplace constKey computedMember = [].
Proof.
  split; [apply traverseNode_Reaches; in_list|].
  repeat split; reflexivity.
Qed.

Lemma last_entry_snoc (A : Type) (l : list A) (x : A) :
  last_entry (l ++ [x]) = Some x.
Proof. unfold last_entry. now rewrite rev_app_distr. Qed.

(** C3, amended.  An occurrence that is the [property] of a member access
    or the [key] of an object property is never collected, whether or not the
    access is computed. *)
Theorem key_positions_are_excluded_computed_or_not
    (id : SelectableIdentifier) (occurrence : Node) (outer : list Ancestor)
    (index : option nat) (computed : bool) :
  (forall l object,
      enterReference id
        (occurrence,
         outer ++ [mkAncestor (MemberExpression l object occurrence computed)
                              "property" index]) = None)
  /\ (forall l value shorthand,
         enterReference id
           (occurrence,
            outer ++ [mkAncestor (ObjectProperty l occurrence value computed shorthand)
                                 "key" index]) = None).
Proof.
  split; intros; unfold enterReference; rewrite last_entry_snoc;
    destruct (loc_of occurrence); try reflexivity;
    destruct (negb _); try reflexivity;
    destruct (isShadowIn _ _); try reflexivity;
    destruct (isInsideNode _ _); reflexivity.
Qed.

(* ===================================================================== *)
(** ** Pattern decomposition *)
(* ===================================================================== *)

Section Decomposition.

Variables (A B : Type).
Variable candidate : A -> nat -> option B.
Variable callback : option B -> A -> nat -> option B.

(** The handler either replaces the captured result or leaves it. *)
Hypothesis callback_overrides :
  forall state item index,
    callback state item index
    = match candidate item index with
      | Some c => Some c
      | None => state
      end.

Lemma forEachFrom_lastCandidate :
  forall items index state,
    forEachFrom callback index items state
    = match lastCandidate candidate index items with
      | Some c => Some c
      | None => state
      end.
Proof.
  induction items as [|item rest IH]; intros index state; simpl; [reflexivity|].
  rewrite IH, callback_overrides.
  destruct (lastCandidate candidate (S index) rest); reflexivity.
Qed.

End Decomposition.

Section LastCandidate.

Variables (A B : Type).
Variable candidate : A -> nat -> option B.

Lemma lastCandidate_none :
  forall items index,
    (forall k y, nth_error items k = Some y -> candidate y (index + k) = None) ->
    lastCandidate candidate index items = None.
Proof.
  induction items as [|item rest IH]; intros index Hnone; simpl; [reflexivity|].
  rewrite IH.
  - specialize (Hnone 0 item eq_refl). now rewrite Nat.add_0_r in Hnone.
  - intros k y Hk. specialize (Hnone (S k) y Hk).
    now rewrite Nat.add_succ_r in Hnone.
Qed.

Lemma lastCandidate_last :
  forall items index j x c,
    nth_error items j = Some x ->
    candidate x (index + j) = Some c ->
    (forall k y, j < k -> nth_error items k = Some y ->
                 candidate y (index + k) = None) ->
    lastCandidate candidate index items = Some c.
Proof.
  induction items as [|item rest IH]; intros index j x c Hj Hc Hlater.
  - destruct j; discriminate.
  - simpl. destruct j as [|j]; simpl in Hj.
    + inversion Hj; subst. rewrite lastCandidate_none.
      * now rewrite Nat.add_0_r in Hc.
      * intros k y Hk. specialize (Hlater (S k) y (Nat.lt_0_succ k) Hk).
        now rewrite Nat.add_succ_r in Hlater.
    + rewrite (IH (S index) j x c); auto.
      * now rewrite Nat.add_succ_r in Hc.
      * intros k y Hlt Hk. specialize (Hlater (S k) y (proj1 (Nat.succ_lt_mono _ _) Hlt) Hk).
        now rewrite Nat.add_succ_r in Hlater.
Qed.

Lemma lastCandidate_some :
  forall items index c,
    lastCandidate candidate index items = Some c ->
    exists j x, nth_error items j = Some x /\ candidate x (index + j) = Some c.
Proof.
  induction items as [|item rest IH]; intros index c H; simpl in H; [discriminate|].
  destruct (lastCandidate candidate (S index) rest) eqn:E.
  - inversion H; subst. destruct (IH _ _ E) as (j & x & Hj & Hc).
    exists (S j), x. split; [assumption|]. now rewrite Nat.add_succ_r.
  - exists 0, item. split; [reflexivity|]. now rewrite Nat.add_0_r.
Qed.

End LastCandidate.

Lemma truthyName_some (o : option string) (name : string) :
  truthyName o = Some name <-> o = Some name /\ name <> EmptyString.
Proof.
  split.
  - destruct o as [[|c rest]|]; try discriminate. simpl.
    intros [= <-]. split; [reflexivity | discriminate].
  - intros [-> Hne]. destruct name; [congruence | reflexivity].
Qed.

Section ObjectPattern.

Variables (selection : Selection) (parent init : Node).
Variable properties : list Node.

Lemma objectPatternCallback_overrides :
  forall state property index,
    objectPatternCallback
      (fun i n => findInlinableCode selection parent i n false)
      selection init properties state property index
    = match objectPatternCandidate selection parent init properties property index with
      | Some c => Some c
      | None => state
      end.
Proof.
  intros state property index.
  unfold objectPatternCallback, objectPatternCandidate, structurallyEligible,
    isSelectableObjectProperty.
  destruct (isInsideNode selection property); cbn [negb andb]; [|reflexivity].
  destruct property; try (cbn; reflexivity).
  cbn [isRestElement negb andb childOfProperty].
  destruct (asSelectableObjectProperty _); cbn [andb]; [|reflexivity].
  destruct (findInlinableCode _ _ _ _ _); cbn [isSome andb]; [|reflexivity].
  destruct (truthyName (getInitName init)); reflexivity.
Qed.

Lemma eligible_candidate (property : Node) (index : nat) :
  structurallyEligible selection parent init property = true ->
  exists selectable child initName,
    asSelectableObjectProperty property = Some selectable
    /\ childOfProperty selection parent property = Some child
    /\ truthyName (getInitName init) = Some initName
    /\ objectPatternCandidate selection parent init properties property index
       = Some (newInlinableObjectPattern child initName selectable
                 (existsb isRestElement properties)
                 (itemBefore properties index) (itemAfter properties index)).
Proof.
  intros H. unfold objectPatternCandidate. rewrite H.
  unfold structurallyEligible, isSelectableObjectProperty in H.
  repeat (apply andb_prop in H; destruct H as [H ?]).
  destruct (asSelectableObjectProperty property) as [selectable|]; [|discriminate].
  destruct (childOfProperty selection parent property) as [child|]; [|discriminate].
  destruct (truthyName (getInitName init)) as [initName|]; [|discriminate].
  exists selectable, child, initName. auto.
Qed.

Lemma ineligible_candidate (property : Node) (index : nat) :
  structurallyEligible selection parent init property = false ->
  objectPatternCandidate selection parent init properties property index = None.
Proof. intros H. unfold objectPatternCandidate. now rewrite H. Qed.

Lemma findInlinableCode_ObjectPattern (l initLoc : SourceLocation)
    (isVariableDeclarator : bool) :
  loc_of init = Some initLoc ->
  findInlinableCode selection parent (ObjectPattern (Some l) properties)
    (Some init) isVariableDeclarator
  = wrapInTopLevelPattern
      (lastCandidate (objectPatternCandidate selection parent init properties)
         0 properties)
      isVariableDeclarator l.
Proof.
  intros Hloc. simpl. rewrite Hloc. unfold forEach.
  rewrite (forEachFrom_lastCandidate
             (objectPatternCandidate selection parent init properties)).
  - now destruct (lastCandidate _ _ _).
  - apply objectPatternCallback_overrides.
Qed.

End ObjectPattern.

Section ArrayPattern.

Variables (selection : Selection) (parent init : Node).
Variable elements : list (option Node).

Lemma arrayPatternCallback_overrides :
  forall state slot index,
    arrayPatternCallback
      (fun i n => findInlinableCode selection parent i n false)
      selection init elements state slot index
    = match arrayPatternCandidate selection parent init elements slot index with
      | Some c => Some c
      | None => state
      end.
Proof.
  intros state [element|] index; [|reflexivity].
  unfold arrayPatternCallback, arrayPatternCandidate, elementEligible,
    isSelectableNode, asSelectableNode.
  destruct (isInsideNode selection element); cbn [negb andb]; [|reflexivity].
  destruct (loc_of element); cbn [andb]; [|reflexivity].
  destruct (findInlinableCode _ _ _ _ _); reflexivity.
Qed.

(** The array-pattern case settles on the last eligible element as well. *)
Lemma findInlinableCode_ArrayPattern (l initLoc : SourceLocation)
    (isVariableDeclarator : bool) :
  loc_of init = Some initLoc ->
  findInlinableCode selection parent (ArrayPattern (Some l) elements)
    (Some init) isVariableDeclarator
  = wrapInTopLevelPattern
      (lastCandidate (arrayPatternCandidate selection parent init elements)
         0 elements)
      isVariableDeclarator l.
Proof.
  intros Hloc. simpl. rewrite Hloc. unfold forEach.
  rewrite (forEachFrom_lastCandidate
             (arrayPatternCandidate selection parent init elements)).
  - now destruct (lastCandidate _ _ _).
  - apply arrayPatternCallback_overrides.
Qed.

End ArrayPattern.

Lemma asSelectableObjectProperty_node (n : Node) (p : SelectableObjectProperty) :
  asSelectableObjectProperty n = Some p -> sop_node p = n.
Proof.
  destruct n; try discriminate. simpl.
  destruct loc0; try discriminate.
  destruct (loc_of n1); try discriminate.
  destruct (loc_of n2); try discriminate.
  now intros [= <-].
Qed.

Lemma selected_property_is_no_rest_element
    (selection : Selection) (parent init : Node) (properties : list Node)
    (l : SourceLocation) (isVariableDeclarator : bool) (c : InlinableCode) :
  findInlinableCode selection parent (ObjectPattern (Some l) properties)
    (Some init) isVariableDeclarator = Some c ->
  exists q, selectedProperty c = Some q
            /\ In q properties
            /\ isRestElement q = false.
Proof.
  intros H. simpl in H. destruct (loc_of init) as [initLoc|] eqn:Hloc; [|discriminate].
  unfold forEach in H.
  rewrite (forEachFrom_lastCandidate
             (objectPatternCandidate selection parent init properties)) in H
    by apply objectPatternCallback_overrides.
  destruct (lastCandidate _ 0 properties) as [c0|] eqn:E; [|discriminate].
  apply lastCandidate_some in E. destruct E as (j & x & Hj & Hc).
  destruct (structurallyEligible selection parent init x) eqn:El.
  - destruct (eligible_candidate selection parent init properties x (0 + j) El)
      as (sp & child & initName & Hsp & _ & _ & Hbuilt).
    rewrite Hbuilt in Hc. inversion Hc; subst c0.
    exists x. repeat split.
    + apply asSelectableObjectProperty_node in Hsp.
      simpl in H. destruct isVariableDeclarator; inversion H; subst c; simpl;
        now rewrite Hsp.
    + eapply nth_error_In; eassumption.
    + unfold structurallyEligible in El.
      repeat (apply andb_prop in El; destruct El as [El ?]).
      now destruct (isRestElement x).
  - rewrite (ineligible_candidate selection parent init properties x (0 + j) El)
      in Hc.
    discriminate.
Qed.

(** C4.  In the decomposition of an object pattern, the result of
    [findInlinableCode] is the composite built from the last structurally
    eligible property in the order of the pattern (its value's inlinable code,
    the initializer's name, which is not empty, the property, the presence of
    a rest sibling and the two neighbours), wrapped as a top-level pattern for
    a declarator; and whatever the decomposition returns, the property it
    settled on is a property of the pattern that is no rest element. *)
Theorem object_pattern_last_eligible_property_wins
    (selection : Selection) (parent init : Node) (properties : list Node)
    (l initLoc : SourceLocation) (isVariableDeclarator : bool)
    (index : nat) (property : Node) :
  loc_of init = Some initLoc ->
  nth_error properties index = Some property ->
  structurallyEligible selection parent init property = true ->
  (forall j q, index < j -> nth_error properties j = Some q ->
               structurallyEligible selection parent init q = false) ->
  (exists selectable child initName,
      asSelectableObjectProperty property = Some selectable
      /\ childOfProperty selection parent property = Some child
      /\ getInitName init = Some initName
      /\ initName <> EmptyString
      /\ findInlinableCode selection parent (ObjectPattern (Some l) properties)
           (Some init) isVariableDeclarator
         = wrapInTopLevelPattern
             (Some (newInlinableObjectPattern child initName selectable
                      (existsb isRestElement properties)
                      (itemBefore properties index) (itemAfter properties index)))
             isVariableDeclarator l)
  /\ isRestElement property = false
  /\ (forall c,
         findInlinableCode selection parent (ObjectPattern (Some l) properties)
           (Some init) isVariableDeclarator = Some c ->
         selectedProperty c = Some property)
  /\ (forall l' init' declarator' c,
         findInlinableCode selection parent (ObjectPattern (Some l') properties)
           (Some init') declarator' = Some c ->
         exists q, selectedProperty c = Some q
                   /\ In q properties /\ isRestElement q = false).
Proof.
  intros Hloc Hnth Hel Hlater.
  destruct (eligible_candidate selection parent init properties property index Hel)
    as (sp & child & initName & Hsp & Hchild & Hname & Hbuilt).
  assert (Hfind :
    findInlinableCode selection parent (ObjectPattern (Some l) properties)
      (Some init) isVariableDeclarator
    = wrapInTopLevelPattern
        (Some (newInlinableObjectPattern child initName sp
                 (existsb isRestElement properties)
                 (itemBefore properties index) (itemAfter properties index)))
        isVariableDeclarator l).
  { rewrite (findInlinableCode_ObjectPattern selection parent init properties l
               isVariableDeclarator Hloc).
    rewrite (lastCandidate_last _ properties 0 Hnth Hbuilt); [reflexivity|].
    intros k y Hlt Hk. apply ineligible_candidate. eauto. }
  split; [|split; [|split]].
  - apply truthyName_some in Hname. destruct Hname as [Hname Hne].
    exists sp, child, initName. auto.
  - unfold structurallyEligible in Hel.
    repeat (apply andb_prop in Hel; destruct Hel as [Hel ?]).
    now destruct (isRestElement property).
  - intros c Hc. rewrite Hfind in Hc.
    apply asSelectableObjectProperty_node in Hsp.
    simpl in Hc. destruct isVariableDeclarator; inversion Hc; subst c; simpl;
      now rewrite Hsp.
  - intros l' init' declarator' c Hc.
    eapply selected_property_is_no_rest_element; eassumption.
Qed.

Lemma object_pattern_last_eligible_property_wins_witness :
  structurallyEligible (cursorAt 1 9) overlappingScope userInit firstProperty = true
  /\ structurallyEligible (cursorAt 1 9) overlappingScope userInit secondProperty = true
  /\ nth_error overlappingPattern 1 = Some secondProperty
  /\ forall c,
       findInlinableCode (cursorAt 1 9) overlappingScope
         (ObjectPattern (at_ 1 6 1 23) overlappingPattern) (Some userInit) true
       = Some c ->
       selectedProperty c = Some secondProperty.
Proof.
  split; [reflexivity|]. split; [reflexivity|]. split; [reflexivity|].
  assert (Hlater : forall j q, 1 < j -> nth_error overlappingPattern j = Some q ->
             structurallyEligible (cursorAt 1 9) overlappingScope userInit q = false).
  { intros j q Hlt Hj. destruct j as [|[|j]]; [lia | lia |].
    destruct j; discriminate. }
  exact (proj1 (proj2 (proj2
           (@object_pattern_last_eligible_property_wins
              (cursorAt 1 9) overlappingScope userInit overlappingPattern
              (span 1 6 1 23) (span 1 26 1 30) true 1 secondProperty
              eq_refl eq_refl eq_refl Hlater)))).
Defined.

(* ===================================================================== *)
(** ** An initializer that has no name *)
(* ===================================================================== *)

(** C7.  When [getInitName] gives [null] for the initializer of an
    object-pattern declaration, [findInlinableCode] returns [null], whatever
    the properties and the selection; the variable inliner then reports
    [DidNotFindInlinableCode] and nothing else, and produces no edit. *)
Theorem unnamed_initializer_finds_nothing
    (findExportedIdNames : Node -> list string)
    (selection : Selection) (parent init : Node)
    (l : option SourceLocation) (properties : list Node)
    (isVariableDeclarator : bool) (valueText : string) :
  getInitName init = None ->
  findInlinableCode selection parent (ObjectPattern l properties) (Some init)
    isVariableDeclarator = None
  /\ inlineVariable findExportedIdNames
       (findInlinableCode selection parent (ObjectPattern l properties)
          (Some init) isVariableDeclarator)
       valueText
     = failure DidNotFindInlinableCode.
Proof.
  intros Hname.
  assert (H : findInlinableCode selection parent (ObjectPattern l properties)
                (Some init) isVariableDeclarator = None).
  { destruct l as [l|]; [|simpl; now destruct (loc_of init)].
    destruct (loc_of init) as [initLoc|] eqn:Hloc; [|simpl; now rewrite Hloc].
    rewrite (findInlinableCode_ObjectPattern selection parent init properties l
               isVariableDeclarator Hloc).
    rewrite lastCandidate_none; [reflexivity|].
    intros k y _. apply ineligible_candidate.
    unfold structurallyEligible. rewrite Hname. apply andb_false_r. }
  split; [exact H | now rewrite H].
Qed.

Lemma unnamed_initializer_finds_nothing_witness :
  getInitName getUserCall = None
  /\ findInlinableCode (cursorAt 1 9) fromCall
       (ObjectPattern (at_ 1 6 1 14) [nameProperty]) (Some getUserCall) true
     = None.
Proof.
  split; [reflexivity|].
  exact (proj1 (@unnamed_initializer_finds_nothing
                  (fun _ => []) (cursorAt 1 9) fromCall getUserCall
                  (at_ 1 6 1 14) [nameProperty] true "name" eq_refl)).
Defined.

(** A member access whose property is a call is not unnamed: its property
    has no [value] that is [null], and the name is printed with [null] in the
    property's place. *)
Example call_as_property_is_named_null :
  getInitName
    (MemberExpression None (Identifier None "users")
       (CallExpression None (Identifier None "current") []) true)
  = Some "users.null".
Proof. reflexivity. Qed.

Example null_valued_property_is_unnamed :
  getInitName
    (MemberExpression None (Identifier None "users")
       (OtherNode None "Literal" VNull) true)
  = None.
Proof. reflexivity. Qed.

(* ===================================================================== *)
(** ** Composites *)
(* ===================================================================== *)

(** C8.  A composite ([SingleDeclaration], [MultipleDeclarations],
    [InlinableObjectPattern], [InlinableArrayPattern],
    [InlinableTopLevelPattern]) reports the [isRedeclared], [isExported],
    [hasIdentifiersToUpdate] and [valueSelection] of the child it wraps. *)
Theorem composite_reports_the_attributes_of_its_child
    (findExportedIdNames : Node -> list string) (c child : InlinableCode) :
  childOf c = Some child ->
  isRedeclared c = isRedeclared child
  /\ isExported findExportedIdNames c = isExported findExportedIdNames child
  /\ hasIdentifiersToUpdate c = hasIdentifiersToUpdate child
  /\ valueSelection c = valueSelection child.
Proof.
  destruct c; simpl; intros [= <-]; repeat split; reflexivity.
Qed.

(** The composites, and only they, have a child. *)
Lemma childOf_composite (c : InlinableCode) :
  childOf c = None <-> exists id scope v ids, c = InlinableIdentifier id scope v ids.
Proof.
  split.
  - destruct c; simpl; try discriminate. eauto.
  - intros (id & scope & v & ids & ->). reflexivity.
Qed.

Lemma composite_reports_the_attributes_of_its_child_witness :
  childOf nameComposite = Some nameLeaf
  /\ isRedeclared nameComposite = isRedeclared nameLeaf
  /\ isExported exportsName nameComposite = isExported exportsName nameLeaf
  /\ hasIdentifiersToUpdate nameComposite = hasIdentifiersToUpdate nameLeaf
  /\ valueSelection nameComposite = valueSelection nameLeaf.
Proof.
  split; [reflexivity|].
  exact (@composite_reports_the_attributes_of_its_child
           exportsName nameComposite nameLeaf eq_refl).
Defined.

(** The delete-range attributes of a composite do differ from its child's,
    and the pattern composites also hand another text down to
    [updateIdentifiersWith]. *)
Example composite_changes_the_delete_range :
  codeToRemoveSelection (InlinableTopLevelPattern nameLeaf (span 1 6 1 25))
    <> codeToRemoveSelection nameLeaf
  /\ map code (updateIdentifiersWith
                 (InlinableArrayPattern nameLeaf 0
                    (mkSelectable nameProperty (span 1 8 1 12)) None None)
                 "user")
     = ["user[0]"]
  /\ map code (updateIdentifiersWith nameComposite "name") = ["user.name"]
  /\ map code (updateIdentifiersWith nameLeaf "user") = ["user"].
Proof. repeat split; try reflexivity. discriminate. Qed.

(* ===================================================================== *)
(** ** Termination of [mergeWithIfStatement] *)
(* ===================================================================== *)

Section MergeTermination.

Variable getStatements : Node -> list Node.

Lemma mergeWithIfStatement_returns (node : Node) :
  forall fuel ifStatement,
    isIfStatement ifStatement = true ->
    elseIfChain ifStatement < fuel ->
    exists merged,
      mergeWithIfStatement getStatements fuel ifStatement node = Some merged
      /\ isIfStatement merged = true.
Proof.
  induction fuel as [|fuel IH]; intros ifStatement Hif Hlt; [lia|].
  destruct ifStatement; try discriminate.
  cbn [mergeWithIfStatement].
  destruct alternate as [alt|]; [|eauto].
  destruct (isIfStatement alt) eqn:Halt; [|eauto].
  destruct (IH alt Halt) as (merged & -> & _); [|eauto].
  simpl in Hlt. destruct alt; try discriminate. lia.
Qed.

(** Fuel beyond what a call needs does not change what it returns. *)
Lemma mergeWithIfStatement_more_fuel (node : Node) :
  forall fuel ifStatement merged,
    mergeWithIfStatement getStatements fuel ifStatement node = Some merged ->
    forall extra,
      mergeWithIfStatement getStatements (fuel + extra) ifStatement node
      = Some merged.
Proof.
  induction fuel as [|fuel IH]; intros ifStatement merged H extra; [discriminate|].
  destruct ifStatement; try discriminate.
  cbn [mergeWithIfStatement Nat.add] in H |- *.
  destruct alternate as [alt|]; [|assumption].
  destruct (isIfStatement alt); [|assumption].
  destruct (mergeWithIfStatement getStatements fuel alt node) as [alt'|] eqn:E;
    [|discriminate].
  now rewrite (IH _ _ E extra).
Qed.

Lemma recursesInto_descends (ifStatement alt : Node) :
  recursesInto ifStatement = Some alt ->
  In ("alternate", None, alt) (children ifStatement)
  /\ isIfStatement alt = true
  /\ S (elseIfChain alt) = elseIfChain ifStatement
  /\ nodeCount alt < nodeCount ifStatement.
Proof.
  destruct ifStatement; try discriminate.
  destruct alternate as [a|]; try discriminate. simpl.
  destruct (isIfStatement a) eqn:Ha; try discriminate.
  intros [= ->]. repeat split.
  - right. right. now left.
  - assumption.
  - destruct alt; try discriminate. reflexivity.
  - lia.
Qed.

End MergeTermination.

(** C9.  [mergeWithIfStatement] returns on every if statement: a call makes
    at most one recursive call, on the [alternate] of its if statement when
    that is an if statement too, which is a child of it with fewer nodes and a
    shorter chain of [else if]; so one call per link of the chain suffices. *)
Theorem mergeWithIfStatement_terminates
    (getStatements : Node -> list Node)
    (ifStatement node : Node) (fuel : nat) :
  isIfStatement ifStatement = true ->
  elseIfChain ifStatement < fuel ->
  (exists merged,
      mergeWithIfStatement getStatements fuel ifStatement node = Some merged
      /\ isIfStatement merged = true)
  /\ elseIfChain ifStatement < nodeCount ifStatement
  /\ (forall alt,
         recursesInto ifStatement = Some alt ->
         In ("alternate", None, alt) (children ifStatement)
         /\ isIfStatement alt = true
         /\ S (elseIfChain alt) = elseIfChain ifStatement
         /\ nodeCount alt < nodeCount ifStatement).
Proof.
  intros Hif Hfuel. split; [|split].
  - now apply mergeWithIfStatement_returns.
  - clear. induction ifStatement as [n IH] using Node_children_ind.
    destruct n; simpl; try lia.
    destruct alternate as [alt|]; [|lia].
    specialize (IH ("alternate", None, alt)).
    simpl in IH. destruct alt; try lia.
    assert (H : elseIfChain (IfStatement loc1 alt1 alt2 alternate)
                < nodeCount (IfStatement loc1 alt1 alt2 alternate)).
    { apply IH. right. right. now left. }
    simpl in H |- *. lia.
  - intros alt. apply recursesInto_descends.
Qed.

Lemma mergeWithIfStatement_terminates_witness :
  isIfStatement elseIfLadder = true
  /\ elseIfChain elseIfLadder < 2
  /\ exists merged,
       mergeWithIfStatement statementsOf 2 elseIfLadder (callOf "done") = Some merged
       /\ isIfStatement merged = true.
Proof.
  split; [reflexivity|]. split; [simpl; lia|].
  exact (proj1 (@mergeWithIfStatement_terminates
                  statementsOf elseIfLadder (callOf "done") 2
                  eq_refl (le_n 2))).
Defined.

(** The statement is added to each branch of the ladder. *)
Example mergeWithIfStatement_sample :
  mergeWithIfStatement statementsOf 2 elseIfLadder (callOf "done")
  = Some (IfStatement (at_ 1 0 1 50) (Identifier (at_ 1 4 1 5) "a")
            (BlockStatement None [callOf "f"; callOf "done"])
            (Some (IfStatement (at_ 1 21 1 50) (Identifier (at_ 1 25 1 26) "b")
                     (BlockStatement None [callOf "g"; callOf "done"])
                     (Some (BlockStatement None [callOf "h"; callOf "done"]))))).
Proof. reflexivity. Qed.

(* ===================================================================== *)
(** ** A property next to a rest element *)
(* ===================================================================== *)


(** When the child does not extend to the declaration, the range to remove is
    the child's. *)
Lemma object_pattern_defers_to_its_child (child : InlinableCode) (initName : string)
    (property : SelectableObjectProperty) (hasRestSibling : bool)
    (previous next : option SelectableObjectProperty) :
  shouldExtendSelectionToDeclaration child = false ->
  codeToRemoveSelection
    (InlinableObjectPattern child initName property hasRestSibling previous next)
  = codeToRemoveSelection child.
Proof. intros H. simpl. now rewrite H. Qed.

(** The leaf found for an identifier extends to the declaration. *)
Lemma identifier_leaf_extends (selection : Selection) (parent : Node)
    (l : option SourceLocation) (name : string) (init : option Node)
    (isVariableDeclarator : bool) (c : InlinableCode) :
  findInlinableCode selection parent (Identifier l name) init isVariableDeclarator
  = Some c ->
  shouldExtendSelectionToDeclaration c = true.
Proof.
  simpl. destruct init as [init|]; [|discriminate].
  destruct (loc_of init); [|discriminate].
  destruct l; [|discriminate]. now intros [= <-].
Qed.




(* ===================================================================== *)
(** ** The function inliner and the exported declarations *)
(* ===================================================================== *)

(** The returns of a nested function are not counted. *)
Lemma nested_function_returns_are_not_counted
    (l : option SourceLocation) (id : option Node) (params : list Node) (body : Node) :
  countReturnStatements (FunctionDeclaration l id params body) = 0.
Proof. reflexivity. Qed.

(** C5.  A function declaration whose body holds more than one return
    statement, or a single one that is not its final statement, is rejected
    with [CantInlineFunctionWithMultipleReturns] and no edit, whatever the
    references to it are and whether or not it is exported. *)
Theorem multiple_returns_are_rejected
    (inlinedAt : Node -> FunctionReference -> string)
    (declaration : Node) (references : list FunctionReference) (exported : bool) :
  isFunctionDeclaration declaration = true ->
  1 < returnStatementsCount declaration
  \/ (returnStatementsCount declaration = 1 /\ endsWithReturn declaration = false) ->
  inlineFunction inlinedAt (Some declaration) references exported
  = failure CantInlineFunctionWithMultipleReturns.
Proof.
  intros Hdecl Hreturns. unfold inlineFunction. rewrite Hdecl. cbn [negb].
  destruct Hreturns as [Hmany|[Hone Hlast]].
  - apply Nat.ltb_lt in Hmany. now rewrite Hmany.
  - rewrite Hone, Hlast. reflexivity.
Qed.

Lemma multiple_returns_are_rejected_witness :
  isFunctionDeclaration twoReturns = true
  /\ returnStatementsCount twoReturns = 2
  /\ inlineFunction bodyWithJohn (Some twoReturns) [assignedCall; plainCall] false
     = failure CantInlineFunctionWithMultipleReturns.
Proof.
  split; [reflexivity|]. split; [reflexivity|].
  exact (@multiple_returns_are_rejected bodyWithJohn twoReturns
           [assignedCall; plainCall] false eq_refl (or_introl (le_n 2))).
Defined.

(** The two cases of the test-suite, "function has multiple return
    statements" and "function has implicit return statements". *)
Example test_multiple_return_statements :
  notices (inlineFunction bodyWithJohn (Some twoReturns) [assignedCall] false)
  = [CantInlineFunctionWithMultipleReturns].
Proof. reflexivity. Qed.

Example test_implicit_return_statements :
  returnStatementsCount implicitReturn = 1
  /\ endsWithReturn implicitReturn = false
  /\ notices (inlineFunction bodyWithJohn (Some implicitReturn) [assignedCall] false)
     = [CantInlineFunctionWithMultipleReturns].
Proof. repeat split; reflexivity. Qed.

(** [updateIdentifiersWith] gives one modification per collected reference,
    at the range of that reference. *)
Lemma updateIdentifiersWith_ranges (c : InlinableCode) :
  forall inlinedCode,
    map selection (updateIdentifiersWith c inlinedCode)
    = map (fun r => fromAST (loc r)) (collectedReferences c).
Proof.
  induction c; intros inlinedCode; simpl; auto.
  rewrite map_map. reflexivity.
Qed.

Lemma isRedeclared_leafOf (c : InlinableCode) :
  isRedeclared c = isRedeclared (leafOf c).
Proof. induction c; simpl; auto. Qed.

Lemma collectedReferences_leafOf (c : InlinableCode) :
  collectedReferences c = collectedReferences (leafOf c).
Proof. induction c; simpl; auto. Qed.

Lemma isExported_leafOf (findExportedIdNames : Node -> list string)
    (c : InlinableCode) :
  isExported findExportedIdNames c = isExported findExportedIdNames (leafOf c).
Proof. induction c; simpl; auto. Qed.

Lemma hasIdentifiersToUpdate_leafOf (c : InlinableCode) :
  hasIdentifiersToUpdate c = hasIdentifiersToUpdate (leafOf c).
Proof. induction c; simpl; auto. Qed.

(** Through the composites, [updateIdentifiersWith] is the leaf's, called
    with the text that reaches the leaf. *)
Lemma updateIdentifiersWith_textAtLeaf (c : InlinableCode) :
  forall inlinedCode,
    updateIdentifiersWith c inlinedCode
    = map (replacementFor (textAtLeaf c inlinedCode)) (collectedReferences c).
Proof. induction c; intros inlinedCode; simpl; auto. Qed.

(** A function declaration that passes the eligibility checks has every one
    of its references rewritten. *)
Lemma inlineFunction_eligible
    (inlinedAt : Node -> FunctionReference -> string)
    (declaration : Node) (references : list FunctionReference)
    (exported : bool) :
  isFunctionDeclaration declaration = true ->
  returnStatementsCount declaration <= 1 ->
  (returnStatementsCount declaration = 1 -> endsWithReturn declaration = true) ->
  (existsb isUsedAsValue references = true ->
   List.length (bodyStatements declaration) <= 1
   /\ endsWithReturn declaration = true) ->
  references <> [] ->
  inlineFunction inlinedAt (Some declaration) references exported
  = mkOutcome
      (map (fun r => mkModification (inlinedAt declaration r) (ref_selection r))
           references)
      (if exported then None else option_map fromAST (loc_of declaration))
      (if exported then [CantRemoveExportedFunction] else []).
Proof.
  intros Hfun Hcount Hlast Hvalue Hrefs. unfold inlineFunction.
  rewrite Hfun. cbn [negb].
  replace (1 <? returnStatementsCount declaration) with false
    by (symmetry; apply Nat.ltb_ge; exact Hcount).
  replace ((returnStatementsCount declaration =? 1)
           && negb (endsWithReturn declaration)) with false.
  2:{ destruct (Nat.eqb_spec (returnStatementsCount declaration) 1) as [E|E];
        [now rewrite (Hlast E) | reflexivity]. }
  destruct (existsb isUsedAsValue references) eqn:Evalue; cbn [andb].
  - destruct (Hvalue eq_refl) as [Hlen Hend].
    replace (1 <? List.length (bodyStatements declaration)) with false
      by (symmetry; apply Nat.ltb_ge; exact Hlen).
    rewrite Hend. cbn [negb].
    destruct references; [contradiction | now destruct exported].
  - destruct references; [contradiction | now destruct exported].
Qed.

(** C6.  When the name of the inlined variable or function is in the export
    list of the scope and the operation passes its eligibility checks, every
    reference is rewritten with the inlined code; no range is deleted, so the
    declaration stays; and exactly one notice is reported, the one that says
    the exported declaration cannot be removed.

    For a variable, the references are the occurrences the leaf collected for
    its identifier in its scope, there is at least one, and each is replaced,
    at its own range, by the text that reaches the leaf: in parentheses under
    a unary expression, after [key: ] as the value of a shorthand property,
    as it is otherwise.  For a function, every reference of a non-empty list is
    replaced, at its own range, by the body inlined at that reference. *)
Theorem exported_declaration_is_kept
    (findExportedIdNames : Node -> list string)
    (inlinedAt : Node -> FunctionReference -> string)
    (inlinable : InlinableCode) (leafId : SelectableIdentifier) (scope : Node)
    (valueLoc : SourceLocation) (valueText : string)
    (declaration : Node) (references : list FunctionReference) :
  leafOf inlinable = newInlinableIdentifier leafId scope valueLoc ->
  In (si_name leafId) (findExportedIdNames scope) ->
  isRedeclared inlinable = false ->
  hasIdentifiersToUpdate inlinable = true ->
  isFunctionDeclaration declaration = true ->
  returnStatementsCount declaration <= 1 ->
  (returnStatementsCount declaration = 1 -> endsWithReturn declaration = true) ->
  (existsb isUsedAsValue references = true ->
   List.length (bodyStatements declaration) <= 1
   /\ endsWithReturn declaration = true) ->
  references <> [] ->
  (edits (inlineVariable findExportedIdNames (Some inlinable) valueText)
   = map (fun r =>
            mkModification
              (if isInUnaryExpression r
               then ("(" ++ textAtLeaf inlinable valueText ++ ")")%string
               else
                 match shorthandKey r with
                 | Some (String _ _ as key) =>
                     (key ++ ": " ++ textAtLeaf inlinable valueText)%string
                 | _ => textAtLeaf inlinable valueText
                 end)
              (fromAST (loc r)))
         (computeIdentifiersToReplace leafId scope)
   /\ computeIdentifiersToReplace leafId scope <> []
   /\ removed (inlineVariable findExportedIdNames (Some inlinable) valueText) = None
   /\ notices (inlineVariable findExportedIdNames (Some inlinable) valueText)
      = [CantRemoveExportedVariable])
  /\ (edits (inlineFunction inlinedAt (Some declaration) references true)
      = map (fun r => mkModification (inlinedAt declaration r) (ref_selection r))
            references
      /\ removed (inlineFunction inlinedAt (Some declaration) references true) = None
      /\ notices (inlineFunction inlinedAt (Some declaration) references true)
         = [CantRemoveExportedFunction]
      /\ count_occ ErrorReason_eq_dec
           (notices (inlineFunction inlinedAt (Some declaration) references true))
           CantRemoveExportedFunction = 1).
Proof.
  intros Hleaf Hexported Hredeclared Hsome Hfun Hcount Hlast Hvalue Hrefs. split.
  - assert (Hexp : isExported findExportedIdNames inlinable = true).
    { rewrite isExported_leafOf, Hleaf. cbn [newInlinableIdentifier isExported].
      apply existsb_exists. exists (si_name leafId).
      split; [assumption | apply String.eqb_refl]. }
    assert (Hrefs' : collectedReferences inlinable
                     = computeIdentifiersToReplace leafId scope).
    { rewrite collectedReferences_leafOf, Hleaf. reflexivity. }
    unfold inlineVariable. rewrite Hredeclared, Hsome, Hexp.
    cbn [negb edits removed notices].
    rewrite updateIdentifiersWith_textAtLeaf, Hrefs'.
    repeat split.
    rewrite hasIdentifiersToUpdate_leafOf, Hleaf in Hsome.
    cbn [newInlinableIdentifier hasIdentifiersToUpdate] in Hsome.
    intros E. rewrite E in Hsome. discriminate.
  - rewrite (@inlineFunction_eligible inlinedAt declaration references true
               Hfun Hcount Hlast Hvalue Hrefs).
    repeat split.
Qed.

Lemma exported_declaration_is_kept_witness :
  leafOf nameComposite
  = newInlinableIdentifier (mkSelectableIdentifier (span 1 8 1 12) "name")
      withRest (span 1 8 1 12)
  /\ In "name" (exportsName withRest)
  /\ isRedeclared nameComposite = false
  /\ hasIdentifiersToUpdate nameComposite = true
  /\ isFunctionDeclaration sayHello = true
  /\ returnStatementsCount sayHello <= 1
  /\ edits (inlineVariable exportsName (Some nameComposite) "name")
     = [mkModification "user.name" (fromAST (span 2 4 2 8))]
  /\ removed (inlineVariable exportsName (Some nameComposite) "name") = None
  /\ notices (inlineVariable exportsName (Some nameComposite) "name")
     = [CantRemoveExportedVariable]
  /\ edits (inlineFunction bodyWithJohn (Some sayHello) [sayHelloCall] true)
     = [mkModification "console.log(John);" (ref_selection sayHelloCall)]
  /\ removed (inlineFunction bodyWithJohn (Some sayHello) [sayHelloCall] true)
     = None
  /\ notices (inlineFunction bodyWithJohn (Some sayHello) [sayHelloCall] true)
     = [CantRemoveExportedFunction].
Proof.
  assert (H1 : leafOf nameComposite
               = newInlinableIdentifier
                   (mkSelectableIdentifier (span 1 8 1 12) "name")
                   withRest (span 1 8 1 12)) by reflexivity.
  assert (H2 : In "name" (exportsName withRest)) by (left; reflexivity).
  assert (H3 : isRedeclared nameComposite = false) by reflexivity.
  assert (H4 : hasIdentifiersToUpdate nameComposite = true) by reflexivity.
  assert (H5 : isFunctionDeclaration sayHello = true) by reflexivity.
  assert (H6 : returnStatementsCount sayHello <= 1) by (vm_compute; lia).
  assert (H7 : returnStatementsCount sayHello = 1 -> endsWithReturn sayHello = true)
    by (vm_compute; discriminate).
  assert (H8 : existsb isUsedAsValue [sayHelloCall] = true ->
               List.length (bodyStatements sayHello) <= 1
               /\ endsWithReturn sayHello = true)
    by (vm_compute; discriminate).
  assert (H9 : [sayHelloCall] <> []) by discriminate.
  destruct (@exported_declaration_is_kept exportsName bodyWithJohn nameComposite
              (mkSelectableIdentifier (span 1 8 1 12) "name") withRest
              (span 1 8 1 12) "name" sayHello [sayHelloCall]
              H1 H2 H3 H4 H5 H6 H7 H8 H9)
    as ((Hedits & _ & Hkept & Hnotice) & (Hcalls & Hstays & Hnotice' & _)).
  repeat split; assumption.
Defined.

(** The test "function is exported": the call is rewritten, nothing is
    removed, the notice is shown. *)
Example test_function_is_exported :
  inlineFunction bodyWithJohn (Some sayHello) [sayHelloCall] true
  = mkOutcome
      [mkModification "console.log(John);" (ref_selection sayHelloCall)]
      None [CantRemoveExportedFunction].
Proof. reflexivity. Qed.

(* ===================================================================== *)
(** ** Splitting and joining text *)
(* ===================================================================== *)

Lemma append_assoc (a b c : string) :
  ((a ++ b) ++ c = a ++ (b ++ c))%string.
Proof. induction a as [|x a IH]; simpl; [reflexivity | now rewrite IH]. Qed.

Lemma append_empty_r (a : string) : (a ++ EmptyString)%string = a.
Proof. induction a as [|x a IH]; simpl; [reflexivity | now rewrite IH]. Qed.

Section SplitJoin.

Variable sep : ascii.

Lemma splitOn_nonempty (s : string) : splitOn sep s <> [].
Proof.
  destruct s as [|c rest]; simpl; [discriminate|].
  destruct (Ascii.eqb c sep); [discriminate|].
  destruct (splitOn sep rest); discriminate.
Qed.

Lemma concat_cons_char (separator : string) (c : ascii) (part : string)
    (parts : list string) :
  String.concat separator (String c part :: parts)
  = String c (String.concat separator (part :: parts)).
Proof. destruct parts; reflexivity. Qed.

(** Joining the parts of a text with the separator gives the text back. *)
Lemma concat_splitOn (s : string) :
  String.concat (String sep EmptyString) (splitOn sep s) = s.
Proof.
  induction s as [|c rest IH]; [reflexivity|]. simpl.
  destruct (Ascii.eqb c sep) eqn:E.
  - apply Ascii.eqb_eq in E. subst c.
    destruct (splitOn sep rest) as [|part parts] eqn:S;
      [now apply splitOn_nonempty in S|].
    change (String.concat (String sep EmptyString) (EmptyString :: part :: parts))
      with (String sep (String.concat (String sep EmptyString) (part :: parts))).
    now rewrite IH.
  - destruct (splitOn sep rest) as [|part parts] eqn:S;
      [now apply splitOn_nonempty in S|].
    rewrite concat_cons_char. now rewrite IH.
Qed.

Lemma splitOn_absent (s : string) :
  occurs sep s = false -> splitOn sep s = [s].
Proof.
  induction s as [|c rest IH]; [reflexivity|]. simpl.
  intros H. apply orb_false_elim in H. destruct H as [Hc Hrest].
  rewrite Hc, (IH Hrest). reflexivity.
Qed.

Lemma splitOn_app (p q : string) :
  splitOn sep (p ++ String sep q)%string = splitOn sep p ++ splitOn sep q.
Proof.
  induction p as [|c p IH]; simpl.
  - now rewrite Ascii.eqb_refl.
  - destruct (Ascii.eqb c sep); [now rewrite IH|].
    rewrite IH. destruct (splitOn sep p) as [|part parts] eqn:S;
      [now apply splitOn_nonempty in S|].
    reflexivity.
Qed.

Lemma concat_app (separator : string) (l1 l2 : list string) :
  l1 <> [] -> l2 <> [] ->
  String.concat separator (l1 ++ l2)
  = (String.concat separator l1 ++ separator ++ String.concat separator l2)%string.
Proof.
  intros H1 H2. induction l1 as [|x l1 IH]; [congruence|].
  destruct l1 as [|y l1].
  - simpl. destruct l2; [congruence | reflexivity].
  - change (String.concat separator ((x :: y :: l1) ++ l2))
      with (x ++ separator ++ String.concat separator ((y :: l1) ++ l2))%string.
    rewrite IH by discriminate.
    change (String.concat separator (x :: y :: l1))
      with (x ++ separator ++ String.concat separator (y :: l1))%string.
    now rewrite !append_assoc.
Qed.

End SplitJoin.

Lemma occurs_app (c : ascii) (s t : string) :
  occurs c (s ++ t)%string = occurs c s || occurs c t.
Proof.
  induction s as [|d s IH]; simpl; [reflexivity|].
  now rewrite IH, orb_assoc.
Qed.

(* ===================================================================== *)
(** ** [prependObjectValueWithInitName] *)
(* ===================================================================== *)

Section Prepend.

Variable initName : string.

Lemma objectValue_of_plain (code : string) :
  occurs ":" code = false ->
  hd EmptyString (splitOn ":" code) = code.
Proof. intros H. now rewrite splitOn_absent. Qed.

Lemma objectValue_of_renamed (objectValue alias : string) :
  occurs ":" objectValue = false ->
  hd EmptyString (splitOn ":" (objectValue ++ ":" ++ alias)%string) = objectValue.
Proof.
  intros H. change (":" ++ alias)%string with (String ":" alias).
  now rewrite splitOn_app, splitOn_absent.
Qed.

Definition insertBeforeLastPart (objectValue : string) : string :=
  String.concat "."
    (removelast (splitOn "." objectValue)
       ++ [initName; List.last (splitOn "." objectValue) EmptyString]).

Lemma prepend_unfold (code : string) :
  prependObjectValueWithInitName initName code
  = insertBeforeLastPart (hd EmptyString (splitOn ":" code)).
Proof. reflexivity. Qed.

Lemma insertBeforeLastPart_single (lastPart : string) :
  occurs "." lastPart = false ->
  insertBeforeLastPart lastPart = (initName ++ "." ++ lastPart)%string.
Proof.
  intros H. unfold insertBeforeLastPart. now rewrite splitOn_absent.
Qed.

Lemma insertBeforeLastPart_prefixed (prefix lastPart : string) :
  occurs "." lastPart = false ->
  insertBeforeLastPart (prefix ++ "." ++ lastPart)%string
  = (prefix ++ "." ++ initName ++ "." ++ lastPart)%string.
Proof.
  intros H. unfold insertBeforeLastPart.
  change ("." ++ lastPart)%string with (String "." lastPart).
  rewrite splitOn_app, (splitOn_absent _ _ H).
  rewrite removelast_last, last_last.
  rewrite concat_app; [|apply splitOn_nonempty|discriminate].
  change "." with (String "."%char EmptyString) at 1.
  now rewrite concat_splitOn.
Qed.

End Prepend.

(** X1.  [prependObjectValueWithInitName] puts the initializer's name before
    the last dot-separated part of the object value, and the object value is
    what stands before the first colon: [id] becomes [user.id], [obj.id]
    becomes [obj.user.id], and a renamed [id: userId] counts as [id]. *)
Theorem prepend_inserts_the_name_before_the_last_part
    (initName prefix lastPart alias : string) :
  occurs ":" prefix = false ->
  occurs ":" lastPart = false ->
  occurs "." lastPart = false ->
  prependObjectValueWithInitName initName lastPart
  = (initName ++ "." ++ lastPart)%string
  /\ prependObjectValueWithInitName initName (prefix ++ "." ++ lastPart)%string
     = (prefix ++ "." ++ initName ++ "." ++ lastPart)%string
  /\ prependObjectValueWithInitName initName (lastPart ++ ":" ++ alias)%string
     = (initName ++ "." ++ lastPart)%string
  /\ prependObjectValueWithInitName initName
       ((prefix ++ "." ++ lastPart) ++ ":" ++ alias)%string
     = (prefix ++ "." ++ initName ++ "." ++ lastPart)%string.
Proof.
  intros Hprefix Hcolon Hdot.
  assert (Hboth : occurs ":" (prefix ++ "." ++ lastPart)%string = false).
  { rewrite !occurs_app, Hprefix, Hcolon. reflexivity. }
  rewrite !prepend_unfold.
  rewrite (objectValue_of_plain _ Hcolon), (objectValue_of_plain _ Hboth),
    (objectValue_of_renamed _ alias Hcolon), (objectValue_of_renamed _ alias Hboth).
  rewrite insertBeforeLastPart_single, insertBeforeLastPart_prefixed by assumption.
  repeat split.
Qed.

Lemma prepend_inserts_the_name_before_the_last_part_witness :
  prependObjectValueWithInitName "user" "id" = "user.id"
  /\ prependObjectValueWithInitName "user" "session.id" = "session.user.id"
  /\ prependObjectValueWithInitName "user" "id: userId" = "user.id"
  /\ prependObjectValueWithInitName "user" "session.id: userId" = "session.user.id".
Proof.
  exact (@prepend_inserts_the_name_before_the_last_part
           "user" "session" "id" " userId" eq_refl eq_refl eq_refl).
Defined.

(** X2.  Two object-pattern composites, one around the other, hand the leaf
    the text [outer.inner.code]: the outer name first, then the inner one,
    then the inlined code, so that [b] of [const { a: { b } } = obj] is
    replaced by [obj.a.b]. *)
Theorem nested_object_patterns_qualify_from_the_outside
    (leaf : InlinableCode) (outer inner inlinedCode : string)
    (outerProperty innerProperty : SelectableObjectProperty)
    (outerRest innerRest : bool)
    (p1 n1 p2 n2 : option SelectableObjectProperty) :
  occurs ":" outer = false ->
  occurs ":" inlinedCode = false ->
  occurs "." inlinedCode = false ->
  updateIdentifiersWith
    (InlinableObjectPattern
       (InlinableObjectPattern leaf inner innerProperty innerRest p2 n2)
       outer outerProperty outerRest p1 n1)
    inlinedCode
  = updateIdentifiersWith leaf (outer ++ "." ++ inner ++ "." ++ inlinedCode)%string.
Proof.
  intros Houter Hcolon Hdot. cbn [updateIdentifiersWith].
  rewrite (prepend_unfold outer inlinedCode), (objectValue_of_plain _ Hcolon),
    insertBeforeLastPart_single by assumption.
  rewrite prepend_unfold, objectValue_of_plain,
    insertBeforeLastPart_prefixed by
      (try assumption; rewrite !occurs_app, Houter, Hcolon; reflexivity).
  reflexivity.
Qed.

(* ===================================================================== *)
(** ** Naming an initializer *)
(* ===================================================================== *)

Lemma valueIsNull_unnamed (p : Node) :
  valueIsNull p = true -> getInitName p = None.
Proof. destruct p; try discriminate. reflexivity. Qed.

(** X3.  [getInitName] gives no name to a member access exactly when the
    [value] of its property is [null] and the property has no name itself.
    In particular an object that has no name does not stop it: the name then
    starts with [null]. *)
Theorem member_access_is_unnamed_only_for_a_null_value
    (l : option SourceLocation) (object property : Node) (computed : bool) :
  (getInitName (MemberExpression l object property computed) = None
   <-> valueIsNull property = true /\ getInitName property = None)
  /\ (valueIsNull property = false ->
      getInitName object = None ->
      exists suffix,
        getInitName (MemberExpression l object property computed)
        = Some ("null" ++ suffix)%string).
Proof.
  split; [split|].
  - cbn [getInitName]. destruct (valueIsNull property); [|simpl; discriminate].
    destruct (getInitName property); [simpl; discriminate | auto].
  - intros [H1 H2]. cbn [getInitName]. now rewrite H1, H2.
  - intros Hvalue Hobject. cbn [getInitName]. rewrite Hvalue, Hobject.
    simpl. eauto.
Qed.

Lemma member_access_is_unnamed_only_for_a_null_value_witness :
  valueIsNull (Identifier None "profile") = false
  /\ getInitName getUserCall = None
  /\ exists suffix,
       getInitName (MemberExpression None getUserCall
                      (Identifier None "profile") false)
       = Some ("null" ++ suffix)%string.
Proof.
  split; [reflexivity|]. split; [reflexivity|].
  exact (proj2 (@member_access_is_unnamed_only_for_a_null_value
                  None getUserCall (Identifier None "profile") false)
           eq_refl eq_refl).
Defined.

Lemma getInitName_dotted (object : Node) (l : option SourceLocation) (p : string) :
  getInitName (MemberExpression None object (Identifier l p) false)
  = Some (interpolate (getInitName object) ++ "." ++ p)%string.
Proof. reflexivity. Qed.

(** X4.  For a chain of plain member accesses on a base that has a name,
    [getInitName] prints the source text of the chain: the base's name and the
    property names joined by dots. *)
Theorem member_chain_is_named_by_its_text
    (base : Node) (name : string) (properties : list string) :
  getInitName base = Some name ->
  getInitName (memberChain base properties)
  = Some (String.concat "." (name :: properties)).
Proof.
  intros Hbase. unfold memberChain.
  induction properties as [|p properties IH] using rev_ind; [exact Hbase|].
  rewrite fold_left_app. cbn [fold_left]. rewrite getInitName_dotted, IH.
  cbn [interpolate]. f_equal.
  change (name :: properties ++ [p]) with ((name :: properties) ++ [p]).
  now rewrite concat_app by discriminate.
Qed.

Lemma member_chain_is_named_by_its_text_witness :
  getInitName (ThisExpression None) = Some "this"
  /\ getInitName (memberChain (ThisExpression None) ["props"; "user"])
     = Some "this.props.user".
Proof.
  split; [reflexivity|].
  exact (@member_chain_is_named_by_its_text
           (ThisExpression None) "this" ["props"; "user"] eq_refl).
Defined.

(* ===================================================================== *)
(** ** What the getters of a composite tell *)
(* ===================================================================== *)

Lemma hasIdentifiersToUpdate_collected (c : InlinableCode) :
  hasIdentifiersToUpdate c = (0 <? List.length (collectedReferences c)).
Proof. induction c; simpl; auto. Qed.

(** X5.  [hasIdentifiersToUpdate] tells whether [updateIdentifiersWith] will
    produce an edit: it is true exactly when the list of modifications is not
    empty, whatever the text, and there is one modification per collected
    reference. *)
Theorem hasIdentifiersToUpdate_iff_some_modification
    (c : InlinableCode) (inlinedCode : string) :
  (hasIdentifiersToUpdate c = true <-> updateIdentifiersWith c inlinedCode <> [])
  /\ List.length (updateIdentifiersWith c inlinedCode)
     = List.length (collectedReferences c).
Proof.
  assert (Hlen : List.length (updateIdentifiersWith c inlinedCode)
                 = List.length (collectedReferences c)).
  { rewrite <- (length_map selection), updateIdentifiersWith_ranges.
    apply length_map. }
  split; [|exact Hlen].
  rewrite hasIdentifiersToUpdate_collected, <- Hlen.
  destruct (updateIdentifiersWith c inlinedCode); simpl; split;
    try discriminate; try congruence; reflexivity.
Qed.

(** X6.  Once an inlinable does not extend to the declaration, no composite
    around it does, and each hands on its range to remove untouched. *)
Theorem composite_keeps_a_range_that_does_not_extend
    (composite child : InlinableCode) :
  childOf composite = Some child ->
  shouldExtendSelectionToDeclaration child = false ->
  shouldExtendSelectionToDeclaration composite = false
  /\ codeToRemoveSelection composite = codeToRemoveSelection child.
Proof.
  destruct composite; simpl; try discriminate; intros [= <-] H; rewrite H;
    split; reflexivity.
Qed.

(* ===================================================================== *)
(** ** Which occurrences are collected, and what replaces them *)
(* ===================================================================== *)

Lemma enterReference_inv (id : SelectableIdentifier) (n : Node)
    (chain : list Ancestor) (r : IdentifierToReplace) :
  enterReference id (n, chain) = Some r ->
  exists l parent,
    n = Identifier (Some l) (si_name id)
    /\ isShadowIn id chain = false
    /\ isInside (fromAST l) (fromAST (si_loc id)) = false
    /\ last_entry chain = Some parent
    /\ isObjectProperty (anc_node parent) && cameThrough parent "key" = false
    /\ isMemberExpression (anc_node parent) && cameThrough parent "property" = false
    /\ r = referenceAt id l parent.
Proof.
  unfold enterReference.
  destruct (loc_of n) as [l|] eqn:Hloc; [|discriminate].
  destruct (areEqual (si_node id) n) eqn:Heq; [|discriminate].
  apply areEqual_identifier in Heq. destruct Heq as [l' ->].
  simpl in Hloc. subst l'. cbn [negb].
  destruct (isShadowIn id chain) eqn:Hsh; [discriminate|].
  unfold isInsideNode. cbn [si_node loc_of].
  destruct (isInside (fromAST l) (fromAST (si_loc id))) eqn:Hself; [discriminate|].
  destruct (last_entry chain) as [parent|] eqn:Hlast; [|discriminate].
  cbn [isFunctionDeclarationEntry].
  destruct (isObjectProperty (anc_node parent) && cameThrough parent "key") eqn:Hkey;
    [discriminate|].
  destruct (isMemberExpression (anc_node parent) && cameThrough parent "property")
    eqn:Hprop; [discriminate|].
  intros [= <-]. exists l, parent. repeat split; try assumption; reflexivity.
Qed.

(** X7.  The references collected for a binding are exactly the selectable
    identifiers of the scope that have the binding's name, stand under no
    scope that redeclares it, do not lie within the binding's own identifier,
    have a parent, and are neither the key of an object property nor the
    property of a member access; each is recorded with its location, with
    whether its parent is a unary expression, and with the name as shorthand
    key when its parent is a shorthand object property. *)
Theorem collected_references_are_the_free_occurrences
    (id : SelectableIdentifier) (scope : Node) (r : IdentifierToReplace) :
  In r (computeIdentifiersToReplace id scope)
  <-> exists l chain parent,
        Reaches scope chain (Identifier (Some l) (si_name id))
        /\ isShadowIn id chain = false
        /\ isInside (fromAST l) (fromAST (si_loc id)) = false
        /\ last_entry chain = Some parent
        /\ isObjectProperty (anc_node parent) && cameThrough parent "key" = false
        /\ isMemberExpression (anc_node parent) && cameThrough parent "property"
           = false
        /\ r = referenceAt id l parent.
Proof.
  rewrite collected_iff. split.
  - intros (n & chain & Hreach & Henter).
    destruct (enterReference_inv _ _ _ Henter)
      as (l & parent & -> & Hsh & Hself & Hlast & Hkey & Hprop & ->).
    exists l, chain, parent. repeat split; assumption.
  - intros (l & chain & parent & Hreach & Hsh & Hself & Hlast & Hkey & Hprop & ->).
    exists (Identifier (Some l) (si_name id)), chain. split; [assumption|].
    unfold enterReference. cbn [loc_of si_node areEqual].
    rewrite String.eqb_refl. cbn [negb]. rewrite Hsh.
    change (isInsideNode (fromAST l) (si_node id))
      with (isInside (fromAST l) (fromAST (si_loc id))).
    rewrite Hself, Hlast.
    cbn [isFunctionDeclarationEntry]. rewrite Hkey, Hprop. reflexivity.
Qed.

(** X8.  Each modification of an identifier leaf replaces the range of one
    collected occurrence of the binding's name, and its text is decided by
    the node that holds that occurrence: the inlined code in parentheses under
    a unary expression; otherwise [name: inlined code], with the binding's own
    name, as the value of a shorthand object property (the inlined code alone
    if the name is the empty string); otherwise the inlined code as it is. *)
Theorem modifications_are_one_of_three_texts
    (id : SelectableIdentifier) (scope : Node) (valueLoc : SourceLocation)
    (inlinedCode : string) (m : Modification) :
  In m (updateIdentifiersWith (newInlinableIdentifier id scope valueLoc) inlinedCode) ->
  exists l chain parent,
    Reaches scope chain (Identifier (Some l) (si_name id))
    /\ last_entry chain = Some parent
    /\ selection m = fromAST l
    /\ code m
       = if isUnaryExpression (anc_node parent)
         then ("(" ++ inlinedCode ++ ")")%string
         else if isObjectProperty (anc_node parent)
                 && isShorthand (anc_node parent)
         then match si_name id with
              | EmptyString => inlinedCode
              | String _ _ => (si_name id ++ ": " ++ inlinedCode)%string
              end
         else inlinedCode.
Proof.
  cbn [newInlinableIdentifier updateIdentifiersWith]. rewrite in_map_iff.
  intros (r & <- & Hr). apply collected_iff in Hr.
  destruct Hr as (n & chain & Hreach & Henter).
  destruct (enterReference_inv _ _ _ Henter)
    as (l & parent & -> & _ & _ & Hlast & _ & _ & ->).
  exists l, chain, parent. repeat split; try assumption.
  unfold replacementFor, referenceAt. cbn [isInUnaryExpression shorthandKey code].
  destruct (isUnaryExpression (anc_node parent)); [reflexivity|].
  destruct (isObjectProperty (anc_node parent) && isShorthand (anc_node parent));
    [|reflexivity].
  destruct (si_name id); reflexivity.
Qed.

(* ===================================================================== *)
(** ** What a decomposition returns *)
(* ===================================================================== *)

Lemma nth_error_indexed (key : string) (x : Node) :
  forall l i j,
    nth_error l j = Some x -> In (key, Some (i + j), x) (indexed key i l).
Proof.
  induction l as [|y l IH]; intros i j H; [destruct j; discriminate|].
  destruct j as [|j]; simpl in *.
  - inversion H; subst. left. now rewrite Nat.add_0_r.
  - right. rewrite Nat.add_succ_r. exact (IH (S i) j H).
Qed.

Lemma nth_error_indexedSlots (key : string) (x : Node) :
  forall l i j,
    nth_error l j = Some (Some x) ->
    In (key, Some (i + j), x) (indexedSlots key i l).
Proof.
  induction l as [|y l IH]; intros i j H; [destruct j; discriminate|].
  destruct j as [|j]; simpl in *.
  - inversion H; subst. left. now rewrite Nat.add_0_r.
  - rewrite Nat.add_succ_r. destruct y; [right|]; exact (IH (S i) j H).
Qed.

Lemma lastCandidate_none_inv (A B : Type) (candidate : A -> nat -> option B) :
  forall items index,
    lastCandidate candidate index items = None ->
    forall k y, nth_error items k = Some y -> candidate y (index + k) = None.
Proof.
  induction items as [|item rest IH]; intros index H k y Hk;
    [destruct k; discriminate|].
  simpl in H. destruct (lastCandidate candidate (S index) rest) eqn:E;
    [discriminate|].
  destruct k as [|k]; simpl in Hk.
  - inversion Hk; subst. now rewrite Nat.add_0_r.
  - rewrite Nat.add_succ_r. exact (IH (S index) E k y Hk).
Qed.

Lemma lastCandidate_some_last (A B : Type) (candidate : A -> nat -> option B) :
  forall items index c,
    lastCandidate candidate index items = Some c ->
    exists j x,
      nth_error items j = Some x
      /\ candidate x (index + j) = Some c
      /\ forall k y, j < k -> nth_error items k = Some y ->
                     candidate y (index + k) = None.
Proof.
  induction items as [|item rest IH]; intros index c H; simpl in H; [discriminate|].
  destruct (lastCandidate candidate (S index) rest) eqn:E.
  - inversion H; subst. destruct (IH _ _ E) as (j & x & Hj & Hc & Hlater).
    exists (S j), x. split; [assumption|]. split; [now rewrite Nat.add_succ_r|].
    intros k y Hlt Hk. destruct k as [|k]; [lia|].
    rewrite Nat.add_succ_r. apply (Hlater k y); [lia | assumption].
  - exists 0, item. split; [reflexivity|]. split; [now rewrite Nat.add_0_r|].
    intros k y Hlt Hk. destruct k as [|k]; [lia|]. simpl in Hk.
    rewrite Nat.add_succ_r.
    exact (lastCandidate_none_inv candidate rest (S index) E k Hk).
Qed.

Lemma childOfProperty_inv (selection : Selection) (parent init x : Node)
    (child : InlinableCode) :
  childOfProperty selection parent x = Some child ->
  exists l key value computed shorthand,
    x = ObjectProperty l key value computed shorthand
    /\ findInlinableCode selection parent value (Some x) false = Some child.
Proof.
  destruct x; try discriminate. simpl. intros H. eauto 8.
Qed.

Lemma object_pattern_found (selection : Selection) (parent : Node)
    (lo : option SourceLocation) (properties : list Node) (init : option Node)
    (isVariableDeclarator : bool) (c : InlinableCode) :
  findInlinableCode selection parent (ObjectPattern lo properties) init
    isVariableDeclarator = Some c ->
  exists l init' j x selectable child initName,
    lo = Some l /\ init = Some init' /\ isSelectableNode init' = true
    /\ nth_error properties j = Some x
    /\ structurallyEligible selection parent init' x = true
    /\ asSelectableObjectProperty x = Some selectable
    /\ childOfProperty selection parent x = Some child
    /\ getInitName init' = Some initName
    /\ wrapInTopLevelPattern
         (Some (newInlinableObjectPattern child initName selectable
                  (existsb isRestElement properties)
                  (itemBefore properties j) (itemAfter properties j)))
         isVariableDeclarator l
       = Some c.
Proof.
  intros H. destruct init as [init'|]; [|discriminate].
  destruct (loc_of init') as [initLoc|] eqn:Hloc; [|simpl in H; now rewrite Hloc in H].
  destruct lo as [l|]; [|simpl in H; now rewrite Hloc in H].
  rewrite (findInlinableCode_ObjectPattern selection parent init' properties l
             isVariableDeclarator Hloc) in H.
  destruct (lastCandidate _ 0 properties) as [c0|] eqn:E; [|discriminate].
  apply lastCandidate_some in E. destruct E as (j & x & Hj & Hc). simpl in Hc.
  destruct (structurallyEligible selection parent init' x) eqn:El.
  - destruct (eligible_candidate selection parent init' properties x j El)
      as (sp & child & initName & Hsp & Hchild & Hname & Hbuilt).
    rewrite Hbuilt in Hc. inversion Hc; subst c0.
    apply truthyName_some in Hname. destruct Hname as [Hname _].
    exists l, init', j, x, sp, child, initName.
    unfold isSelectableNode. rewrite Hloc. repeat split; assumption.
  - rewrite (ineligible_candidate selection parent init' properties x j El) in Hc.
    discriminate.
Qed.

Lemma eligible_element (selection : Selection) (parent init : Node)
    (elements : list (option Node)) (slot : option Node) (index : nat)
    (c : InlinableCode) :
  arrayPatternCandidate selection parent init elements slot index = Some c ->
  exists element selectable child,
    slot = Some element
    /\ elementEligible selection parent init slot = true
    /\ isInsideNode selection element = true
    /\ asSelectableNode element = Some selectable
    /\ sn_node selectable = element
    /\ findInlinableCode selection parent element (Some init) false = Some child
    /\ c = newInlinableArrayPattern child index selectable
             (flatten (itemBefore elements index))
             (flatten (itemAfter elements index)).
Proof.
  unfold arrayPatternCandidate.
  destruct (elementEligible selection parent init slot) eqn:El; [|discriminate].
  destruct slot as [element|]; [|discriminate].
  unfold elementEligible in El.
  apply andb_prop in El. destruct El as [El Hchild].
  apply andb_prop in El. destruct El as [Hinside Hsel].
  unfold asSelectableNode. unfold isSelectableNode in Hsel.
  destruct (loc_of element) as [l|] eqn:Hl; [|discriminate].
  destruct (findInlinableCode selection parent element (Some init) false)
    as [child|] eqn:Hfind; [|discriminate].
  intros [= <-]. exists element, (mkSelectable element l), child.
  unfold elementEligible, isSelectableNode. cbn [sn_node].
  rewrite Hinside, Hfind, Hl.
  repeat split; reflexivity.
Qed.

Lemma array_pattern_found (selection : Selection) (parent : Node)
    (lo : option SourceLocation) (elements : list (option Node))
    (init : option Node) (isVariableDeclarator : bool) (c : InlinableCode) :
  findInlinableCode selection parent (ArrayPattern lo elements) init
    isVariableDeclarator = Some c ->
  exists l init' j element selectable child,
    lo = Some l /\ init = Some init' /\ isSelectableNode init' = true
    /\ nth_error elements j = Some (Some element)
    /\ isInsideNode selection element = true
    /\ asSelectableNode element = Some selectable
    /\ sn_node selectable = element
    /\ findInlinableCode selection parent element (Some init') false = Some child
    /\ (forall k slot, j < k -> nth_error elements k = Some slot ->
                       elementEligible selection parent init' slot = false)
    /\ wrapInTopLevelPattern
         (Some (newInlinableArrayPattern child j selectable
                  (flatten (itemBefore elements j))
                  (flatten (itemAfter elements j))))
         isVariableDeclarator l
       = Some c.
Proof.
  intros H. destruct init as [init'|]; [|discriminate].
  destruct (loc_of init') as [initLoc|] eqn:Hloc; [|simpl in H; now rewrite Hloc in H].
  destruct lo as [l|]; [|simpl in H; now rewrite Hloc in H].
  rewrite (findInlinableCode_ArrayPattern selection parent init' elements l
             isVariableDeclarator Hloc) in H.
  destruct (lastCandidate _ 0 elements) as [c0|] eqn:E; [|discriminate].
  apply lastCandidate_some_last in E.
  destruct E as (j & slot & Hj & Hc & Hlater). simpl in Hc.
  destruct (eligible_element _ _ _ _ _ _ Hc)
    as (element & selectable & child & -> & _ & Hinside & Hsel & Hnode & Hfind & ->).
  exists l, init', j, element, selectable, child.
  unfold isSelectableNode. rewrite Hloc. repeat split; try assumption.
  intros k slot Hlt Hk. specialize (Hlater k slot Hlt Hk). simpl in Hlater.
  unfold arrayPatternCandidate in Hlater.
  destruct (elementEligible selection parent init' slot) eqn:El; [|reflexivity].
  exfalso. unfold elementEligible in El.
  destruct slot as [e|]; [|discriminate].
  apply andb_prop in El. destruct El as [El Hchild].
  apply andb_prop in El. destruct El as [_ Hs].
  unfold isSelectableNode in Hs. unfold asSelectableNode in Hlater.
  destruct (loc_of e); [|discriminate].
  destruct (findInlinableCode selection parent e (Some init') false);
    discriminate.
Qed.

Section LeafOfResult.

Variables (selection : Selection) (parent : Node).

Lemma leafOf_wrapInTopLevelPattern (c0 c : InlinableCode) (d : bool)
    (l : SourceLocation) :
  wrapInTopLevelPattern (Some c0) d l = Some c -> leafOf c = leafOf c0.
Proof. simpl. destruct d; intros [= <-]; reflexivity. Qed.

Lemma leaf_is_in_pattern_and_children (id : Node) :
  leafIsInPattern selection parent id
  /\ forall c, In c (children id) -> leafIsInPattern selection parent (snd c).
Proof.
  induction id as [id IH] using Node_children_ind.
  split; [|intros c Hc; exact (proj1 (IH c Hc))].
  intros init d c H. destruct id;
    try (simpl in H; destruct init as [i|]; [destruct (loc_of i)|]; discriminate).
  - (* identifier *)
    simpl in H. destruct init as [i|]; [|discriminate].
    destruct (loc_of i); [|discriminate].
    destruct loc0 as [l|]; [|discriminate].
    inversion H; subst c.
    exists (mkSelectableIdentifier l name), (fromAST s), [].
    split; [reflexivity | constructor].
  - (* object pattern *)
    destruct (object_pattern_found _ _ _ _ _ _ H)
      as (l & init' & j & x & sp & child & initName & -> & -> & _ & Hj & _ & _
          & Hchild & _ & Hwrap).
    destruct (childOfProperty_inv _ _ init' _ Hchild)
      as (pl & key & value & computed & shorthand & -> & Hfind).
    assert (Hx : In ("properties", Some j,
                     ObjectProperty pl key value computed shorthand)
                    (children (ObjectPattern (Some l) properties))).
    { exact (@nth_error_indexed "properties" _ properties 0 j Hj). }
    assert (Hv : leafIsInPattern selection parent value).
    { apply (proj2 (IH _ Hx) ("value", None, value)). right. now left. }
    destruct (Hv _ _ _ Hfind) as (leafId & v & chain & Hleaf & Hreach).
    exists leafId, v, ([entryOf (ObjectPattern (Some l) properties)
                          ("properties", Some j,
                           ObjectProperty pl key value computed shorthand)]
                       ++ [entryOf (ObjectProperty pl key value computed shorthand)
                             ("value", None, value)] ++ chain).
    split.
    + rewrite (leafOf_wrapInTopLevelPattern _ _ _ Hwrap). exact Hleaf.
    + eapply Reaches_trans; [exact (Reaches_one _ _ Hx)|].
      eapply Reaches_trans; [|exact Hreach].
      apply (Reaches_one (ObjectProperty pl key value computed shorthand)
               ("value", None, value)).
      right. now left.
  - (* array pattern *)
    destruct (array_pattern_found _ _ _ _ _ _ H)
      as (l & init' & j & element & selectable & child & -> & -> & _ & Hj & _ & _
          & _ & Hfind & _ & Hwrap).
    assert (Hx : In ("elements", Some j, element)
                    (children (ArrayPattern (Some l) elements))).
    { exact (@nth_error_indexedSlots "elements" _ elements 0 j Hj). }
    destruct (proj1 (IH _ Hx) _ _ _ Hfind)
      as (leafId & v & chain & Hleaf & Hreach).
    exists leafId, v, ([entryOf (ArrayPattern (Some l) elements)
                          ("elements", Some j, element)] ++ chain).
    split.
    + rewrite (leafOf_wrapInTopLevelPattern _ _ _ Hwrap). exact Hleaf.
    + eapply Reaches_trans; [exact (Reaches_one _ _ Hx) | exact Hreach].
Qed.

End LeafOfResult.

Import MoreSamples.

(** X9.  Whatever [findInlinableCode] returns, however deep the pattern, its
    leaf is built for an identifier that stands in the binding shape, over the
    scope it was given: the references are those collected for that identifier
    in that scope, and [isRedeclared] is asked of that identifier in that
    scope. *)
Theorem result_inlines_an_identifier_of_the_pattern
    (selection : Selection) (parent id : Node) (init : option Node)
    (isVariableDeclarator : bool) (c : InlinableCode) :
  findInlinableCode selection parent id init isVariableDeclarator = Some c ->
  exists leafId chain,
    Reaches id chain (si_node leafId)
    /\ collectedReferences c = computeIdentifiersToReplace leafId parent
    /\ isRedeclared c = identifierIsRedeclared leafId parent.
Proof.
  intros H.
  destruct (proj1 (leaf_is_in_pattern_and_children selection parent id) _ _ _ H)
    as (leafId & value & chain & Hleaf & Hreach).
  exists leafId, chain. split; [assumption|].
  rewrite collectedReferences_leafOf, isRedeclared_leafOf, Hleaf. split; reflexivity.
Qed.

Lemma result_inlines_an_identifier_of_the_pattern_witness :
  findInlinableCode (cursorAt 1 13) nested nestedPattern (Some objInit) false
  = Some nestedComposite
  /\ exists leafId chain,
       Reaches nestedPattern chain (si_node leafId)
       /\ collectedReferences nestedComposite
          = computeIdentifiersToReplace leafId nested
       /\ isRedeclared nestedComposite = identifierIsRedeclared leafId nested.
Proof.
  split; [reflexivity|].
  exact (@result_inlines_an_identifier_of_the_pattern
           (cursorAt 1 13) nested nestedPattern (Some objInit) false
           nestedComposite eq_refl).
Defined.

Lemma nested_object_patterns_qualify_from_the_outside_witness :
  updateIdentifiersWith nestedComposite "b" = updateIdentifiersWith bLeaf "obj.a.b"
  /\ map code (updateIdentifiersWith nestedComposite "b") = ["obj.a.b"].
Proof.
  split; [|reflexivity].
  exact (@nested_object_patterns_qualify_from_the_outside
           bLeaf "obj" "a" "b" aSelectable bSelectable false false
           None None None None eq_refl eq_refl eq_refl).
Defined.

(** X10.  The array-pattern case settles on the last eligible element: a
    filled slot that contains the selection, after which no slot is eligible.
    The position it records counts the elided slots before it, and it is the
    index the composite appends to the inlined code. *)
Theorem array_pattern_settles_on_the_last_eligible_element
    (selection : Selection) (parent init : Node)
    (lo : option SourceLocation) (elements : list (option Node))
    (isVariableDeclarator : bool) (c : InlinableCode) :
  findInlinableCode selection parent (ArrayPattern lo elements) (Some init)
    isVariableDeclarator = Some c ->
  exists element index child,
    selectedElement c = Some (element, index)
    /\ nth_error elements index = Some (Some element)
    /\ isInsideNode selection element = true
    /\ findInlinableCode selection parent element (Some init) false = Some child
    /\ (forall k slot, index < k -> nth_error elements k = Some slot ->
                       elementEligible selection parent init slot = false)
    /\ forall inlinedCode,
         updateIdentifiersWith c inlinedCode
         = updateIdentifiersWith child
             (inlinedCode ++ "[" ++ showIndex index ++ "]")%string.
Proof.
  intros H.
  destruct (array_pattern_found _ _ _ _ _ _ H)
    as (l & init' & j & element & selectable & child & _ & [= <-] & _ & Hj & Hinside
        & _ & Hnode & Hfind & Hlater & Hwrap).
  exists element, j, child.
  simpl in Hwrap.
  destruct isVariableDeclarator; inversion Hwrap; subst c; cbn; rewrite Hnode;
    repeat split; assumption.
Qed.

Lemma array_pattern_settles_on_the_last_eligible_element_witness :
  findInlinableCode (cursorAt 1 10) holed (ArrayPattern (at_ 1 6 1 16) holedElements)
    (Some pairInit) true
  = Some secondComposite
  /\ selectedElement secondComposite = Some (secondElement, 1)
  /\ map code (updateIdentifiersWith secondComposite "pair") = ["pair[1]"]
  /\ exists element index child,
       selectedElement secondComposite = Some (element, index)
       /\ nth_error holedElements index = Some (Some element)
       /\ isInsideNode (cursorAt 1 10) element = true
       /\ findInlinableCode (cursorAt 1 10) holed element (Some pairInit) false
          = Some child
       /\ (forall k slot, index < k -> nth_error holedElements k = Some slot ->
                          elementEligible (cursorAt 1 10) holed pairInit slot = false)
       /\ forall inlinedCode,
            updateIdentifiersWith secondComposite inlinedCode
            = updateIdentifiersWith child
                (inlinedCode ++ "[" ++ showIndex index ++ "]")%string.
Proof.
  split; [reflexivity|]. split; [reflexivity|]. split; [reflexivity|].
  exact (@array_pattern_settles_on_the_last_eligible_element
           (cursorAt 1 10) holed pairInit (at_ 1 6 1 16) holedElements true
           secondComposite eq_refl).
Defined.

(** An initializer whose name is empty is treated as one that has no name:
    the handler stops at [if (!initName) return;]. *)
Lemma empty_named_initializer_finds_nothing
    (selection : Selection) (parent init : Node)
    (l : option SourceLocation) (properties : list Node)
    (isVariableDeclarator : bool) :
  getInitName init = Some EmptyString ->
  findInlinableCode selection parent (ObjectPattern l properties) (Some init)
    isVariableDeclarator = None.
Proof.
  intros Hname.
  destruct l as [l|]; [|simpl; now destruct (loc_of init)].
  destruct (loc_of init) as [initLoc|] eqn:Hloc; [|simpl; now rewrite Hloc].
  rewrite (findInlinableCode_ObjectPattern selection parent init properties l
             isVariableDeclarator Hloc).
  rewrite lastCandidate_none; [reflexivity|].
  intros k y _. apply ineligible_candidate.
  unfold structurallyEligible. rewrite Hname. apply andb_false_r.
Qed.

(** X11.  When the selected property is the only property of an object
    pattern, its value is an identifier and the initializer has a name that is
    not empty, the result for the declarator extends to the declaration; the
    range to remove is the whole pattern and the value is the text of the
    property itself. *)
Theorem only_property_removes_the_whole_pattern
    (selection : Selection) (parent init key : Node)
    (initLoc l pl kl vl : SourceLocation) (initName name : string)
    (computed shorthand : bool) :
  loc_of init = Some initLoc ->
  getInitName init = Some initName ->
  initName <> EmptyString ->
  loc_of key = Some kl ->
  isInsideNode selection
    (ObjectProperty (Some pl) key (Identifier (Some vl) name) computed shorthand)
  = true ->
  exists c,
    findInlinableCode selection parent
      (ObjectPattern (Some l)
         [ObjectProperty (Some pl) key (Identifier (Some vl) name) computed shorthand])
      (Some init) true
    = Some c
    /\ shouldExtendSelectionToDeclaration c = true
    /\ codeToRemoveSelection c = fromAST l
    /\ valueSelection c = fromAST pl
    /\ collectedReferences c
       = computeIdentifiersToReplace (mkSelectableIdentifier vl name) parent.
Proof.
  intros Hloc Hname Hne Hkey Hinside.
  assert (Htruthy : truthyName (getInitName init) = Some initName)
    by (apply truthyName_some; auto).
  assert (El : structurallyEligible selection parent init
                 (ObjectProperty (Some pl) key (Identifier (Some vl) name)
                    computed shorthand) = true).
  { unfold structurallyEligible, isSelectableObjectProperty.
    rewrite Hinside, Htruthy.
    cbn [isRestElement negb andb asSelectableObjectProperty loc_of].
    rewrite Hkey. reflexivity. }
  rewrite (findInlinableCode_ObjectPattern selection parent init _ l true Hloc).
  cbn [lastCandidate].
  destruct (eligible_candidate selection parent init
              [ObjectProperty (Some pl) key (Identifier (Some vl) name)
                 computed shorthand] _ 0 El)
    as (sp & child & initName' & Hsp & Hchild & Hname' & ->).
  cbn [asSelectableObjectProperty loc_of] in Hsp. rewrite Hkey in Hsp.
  cbn [childOfProperty findInlinableCode loc_of] in Hchild.
  inversion Hsp; subst sp. inversion Hchild; subst child.
  eexists. split; [reflexivity|]. cbn. repeat split.
Qed.

Lemma only_property_removes_the_whole_pattern_witness :
  exists c,
    findInlinableCode (cursorAt 1 9) onlyName
      (ObjectPattern (at_ 1 6 1 14) [nameProperty]) (Some userOnly) true
    = Some c
    /\ shouldExtendSelectionToDeclaration c = true
    /\ codeToRemoveSelection c = fromAST (span 1 6 1 14)
    /\ valueSelection c = fromAST (span 1 8 1 12)
    /\ collectedReferences c
       = computeIdentifiersToReplace
           (mkSelectableIdentifier (span 1 8 1 12) "name") onlyName.
Proof.
  assert (Hne : "user" <> EmptyString) by discriminate.
  exact (@only_property_removes_the_whole_pattern
           (cursorAt 1 9) onlyName userOnly (Identifier (at_ 1 8 1 12) "name")
           (span 1 17 1 21) (span 1 6 1 14) (span 1 8 1 12) (span 1 8 1 12)
           (span 1 8 1 12) "user" "name" false true
           eq_refl eq_refl Hne eq_refl eq_refl).
Defined.

Lemma composite_keeps_a_range_that_does_not_extend_witness :
  childOf pairComposite
  = Some (InlinableArrayPattern headLeaf 0
            (mkSelectable headElement (span 1 15 1 19))
            None (Some (mkSelectable tailElement (span 1 21 1 25))))
  /\ shouldExtendSelectionToDeclaration pairComposite = false
  /\ codeToRemoveSelection pairComposite
     = codeToRemoveSelection
         (InlinableArrayPattern headLeaf 0
            (mkSelectable headElement (span 1 15 1 19))
            None (Some (mkSelectable tailElement (span 1 21 1 25)))).
Proof.
  split; [reflexivity|].
  exact (@composite_keeps_a_range_that_does_not_extend pairComposite _
           eq_refl eq_refl).
Defined.

(* ===================================================================== *)
(** ** What [mergeWithIfStatement] does to a ladder *)
(* ===================================================================== *)

Section MergeShape.

Variable getStatements : Node -> list Node.
Variable node : Node.

Lemma merged_is_an_if (fuel : nat) (ifStatement merged : Node) :
  mergeWithIfStatement getStatements fuel ifStatement node = Some merged ->
  exists l test consequent alternate,
    merged = IfStatement l test consequent alternate.
Proof.
  destruct fuel as [|fuel]; [discriminate|].
  destruct ifStatement; try discriminate. cbn [mergeWithIfStatement].
  destruct alternate as [alt|]; [|intros [= <-]; eauto].
  destruct (isIfStatement alt); [|intros [= <-]; eauto].
  destruct (mergeWithIfStatement getStatements fuel alt node);
    [intros [= <-]; eauto | discriminate].
Qed.

Lemma mergeWithIfStatement_shape :
  forall fuel ifStatement merged,
    mergeWithIfStatement getStatements fuel ifStatement node = Some merged ->
    ladderLocs merged = ladderLocs ifStatement
    /\ map fst (ladderLinks merged) = map fst (ladderLinks ifStatement)
    /\ map snd (ladderLinks merged)
       = map (fun link =>
                mergeWith getStatements (snd link)
                  (nodesToMergeInto getStatements (fst link) node))
             (ladderLinks ifStatement)
    /\ finalElse merged
       = option_map (fun e => mergeWith getStatements e [node])
                    (finalElse ifStatement).
Proof.
  induction fuel as [|fuel IH]; intros ifStatement merged H; [discriminate|].
  destruct ifStatement; try discriminate. cbn [mergeWithIfStatement] in H.
  fold (nodesToMergeInto getStatements ifStatement1 node) in H.
  destruct alternate as [alt|]; [|inversion H; subst; repeat split].
  destruct (isIfStatement alt) eqn:Halt.
  - destruct (mergeWithIfStatement getStatements fuel alt node) as [alt'|] eqn:E;
      [|discriminate].
    inversion H; subst merged.
    destruct (IH _ _ E) as (Hlocs & Htests & Hcons & Helse).
    destruct (merged_is_an_if _ _ E) as (l' & t' & c' & a' & ->).
    destruct alt; try discriminate.
    cbn [ladderLocs ladderLinks finalElse map fst snd] in *.
    rewrite Hlocs, Htests, Hcons, Helse. repeat split.
  - inversion H; subst merged.
    destruct alt; try discriminate; repeat split.
Qed.

End MergeShape.

Lemma elseIfChain_ladderLinks (n : Node) :
  elseIfChain n = pred (List.length (map fst (ladderLinks n))).
Proof.
  induction n as [n IH] using Node_children_ind.
  destruct n; try reflexivity. simpl.
  destruct alternate as [alt|]; [|reflexivity].
  specialize (IH ("alternate", None, alt)). simpl in IH.
  destruct alt; try reflexivity.
  rewrite IH by (right; right; now left). simpl. reflexivity.
Qed.

(** X12.  Called on an if statement with more fuel than the ladder has
    [else if] links, [mergeWithIfStatement] returns, and what it returns
    keeps the ladder: the same if statements at the same locations with the
    same tests, and a final [else] exactly when there was one.  Each
    consequent becomes the block of its statements followed by what is merged
    in (the statements of the node's consequent when the node is an if
    statement with an equal test, the node itself otherwise), and the final
    [else] the block of its statements followed by the node. *)
Theorem mergeWithIfStatement_keeps_the_ladder
    (getStatements : Node -> list Node)
    (fuel : nat) (ifStatement node : Node) :
  isIfStatement ifStatement = true ->
  elseIfChain ifStatement < fuel ->
  exists merged,
    mergeWithIfStatement getStatements fuel ifStatement node = Some merged
    /\ ladderLocs merged = ladderLocs ifStatement
    /\ map fst (ladderLinks merged) = map fst (ladderLinks ifStatement)
    /\ map snd (ladderLinks merged)
       = map (fun link =>
                mergeWith getStatements (snd link)
                  (nodesToMergeInto getStatements (fst link) node))
             (ladderLinks ifStatement)
    /\ finalElse merged
       = option_map (fun e => mergeWith getStatements e [node])
                    (finalElse ifStatement)
    /\ elseIfChain merged = elseIfChain ifStatement.
Proof.
  intros Hif Hfuel.
  destruct (@mergeWithIfStatement_returns getStatements node fuel ifStatement
              Hif Hfuel) as (merged & H & _).
  exists merged. split; [exact H|].
  destruct (mergeWithIfStatement_shape _ _ _ _ H) as (Hlocs & Htests & Hcons & Helse).
  repeat split; try assumption.
  now rewrite !elseIfChain_ladderLinks, Htests.
Qed.

Lemma mergeWithIfStatement_keeps_the_ladder_witness :
  isIfStatement elseIfLadder = true
  /\ elseIfChain elseIfLadder < 2
  /\ exists merged,
       mergeWithIfStatement statementsOf 2 elseIfLadder (callOf "done")
       = Some merged
       /\ merged
          = IfStatement (at_ 1 0 1 50) (Identifier (at_ 1 4 1 5) "a")
              (BlockStatement None [callOf "f"; callOf "done"])
              (Some (IfStatement (at_ 1 21 1 50) (Identifier (at_ 1 25 1 26) "b")
                       (BlockStatement None [callOf "g"; callOf "done"])
                       (Some (BlockStatement None [callOf "h"; callOf "done"]))))
       /\ map fst (ladderLinks merged)
          = [Identifier (at_ 1 4 1 5) "a"; Identifier (at_ 1 25 1 26) "b"].
Proof.
  assert (H1 : isIfStatement elseIfLadder = true) by reflexivity.
  assert (H2 : elseIfChain elseIfLadder < 2) by (vm_compute; lia).
  destruct (@mergeWithIfStatement_keeps_the_ladder statementsOf 2 elseIfLadder
              (callOf "done") H1 H2) as (merged & H & _ & Htests & _).
  repeat split; try assumption.
  exists merged. repeat split; [exact H | | exact Htests].
  vm_compute in H. now inversion H.
Defined.

(** X13.  Called on an if statement with more fuel than the ladder has
    [else if] links and a node that is not itself an if statement,
    [mergeWithIfStatement] returns, and every branch of what it returns (each
    consequent and the final [else]) is a fresh block that ends with the
    node; there are as many branches as before: the node is added to all of
    them and a missing [else] is not made up. *)
Theorem merged_node_ends_every_branch
    (getStatements : Node -> list Node)
    (fuel : nat) (ifStatement node : Node) :
  isIfStatement node = false ->
  isIfStatement ifStatement = true ->
  elseIfChain ifStatement < fuel ->
  exists merged,
    mergeWithIfStatement getStatements fuel ifStatement node = Some merged
    /\ Forall (fun branch =>
                 exists before, branch = BlockStatement None (before ++ [node]))
              (branches merged)
    /\ List.length (branches merged) = List.length (branches ifStatement).
Proof.
  intros Hnode Hif Hfuel.
  destruct (@mergeWithIfStatement_returns getStatements node fuel ifStatement
              Hif Hfuel) as (merged & H & _).
  exists merged. split; [exact H|].
  destruct (mergeWithIfStatement_shape _ _ _ _ H) as (_ & _ & Hcons & Helse).
  unfold branches. rewrite Hcons, Helse. split.
  - apply Forall_app. split.
    + apply Forall_forall. intros b Hb. apply in_map_iff in Hb.
      destruct Hb as ([test consequent] & <- & _). simpl.
      exists (getStatements consequent). unfold mergeWith, blockStatement.
      destruct node; try discriminate; reflexivity.
    + destruct (finalElse ifStatement) as [e|]; simpl; constructor; [|constructor].
      exists (getStatements e). reflexivity.
  - rewrite !length_app, !length_map.
    destruct (finalElse ifStatement); reflexivity.
Qed.

Lemma merged_node_ends_every_branch_witness :
  isIfStatement (callOf "done") = false
  /\ isIfStatement elseIfLadder = true
  /\ elseIfChain elseIfLadder < 2
  /\ exists merged,
       mergeWithIfStatement statementsOf 2 elseIfLadder (callOf "done") = Some merged
       /\ Forall (fun branch =>
                    exists before,
                      branch = BlockStatement None (before ++ [callOf "done"]))
                 (branches merged)
       /\ List.length (branches merged) = 3.
Proof.
  assert (H1 : isIfStatement (callOf "done") = false) by reflexivity.
  assert (H2 : isIfStatement elseIfLadder = true) by reflexivity.
  assert (H3 : elseIfChain elseIfLadder < 2) by (vm_compute; lia).
  destruct (@merged_node_ends_every_branch statementsOf 2 elseIfLadder
              (callOf "done") H1 H2 H3) as (merged & H & Hends & Hlen).
  repeat split; try assumption.
  exists merged. repeat split; assumption.
Defined.

Lemma modifications_are_one_of_three_texts_witness :
  map code (updateIdentifiersWith flagLeaf "ready")
  = ["(ready)"; "flag: ready"; "ready"]
  /\ (exists l chain parent,
        Reaches flagUses chain (Identifier (Some l) "flag")
        /\ last_entry chain = Some parent
        /\ fromAST (span 2 5 2 9) = fromAST l
        /\ "(ready)"
           = if isUnaryExpression (anc_node parent) then "(ready)"
             else if isObjectProperty (anc_node parent)
                     && isShorthand (anc_node parent)
             then "flag: ready" else "ready").
Proof.
  split; [reflexivity|].
  exact (@modifications_are_one_of_three_texts flagId flagUses (span 1 13 1 18)
           "ready" (mkModification "(ready)" (fromAST (span 2 5 2 9)))
           (or_introl eq_refl)).
Defined.

(* ===================================================================== *)
(** ** Removing an element of an array pattern *)
(* ===================================================================== *)

(** X14.  When the selected element of an array pattern is an identifier and
    the slot after it holds a selectable element, the result does not extend
    to the declaration and the range to remove is the element's own range, no
    more: the later elements keep their positions. *)
Theorem element_before_another_removes_only_itself
    (selection : Selection) (parent init : Node)
    (lo : option SourceLocation) (elements : list (option Node))
    (isVariableDeclarator : bool) (c : InlinableCode)
    (el : SourceLocation) (name : string) (index : nat) (next : Node) :
  findInlinableCode selection parent (ArrayPattern lo elements) (Some init)
    isVariableDeclarator = Some c ->
  selectedElement c = Some (Identifier (Some el) name, index) ->
  nth_error elements (S index) = Some (Some next) ->
  isSelectableNode next = true ->
  shouldExtendSelectionToDeclaration c = false
  /\ codeToRemoveSelection c = fromAST el.
Proof.
  intros H Hselected Hnext Hsel.
  destruct (array_pattern_found _ _ _ _ _ _ H)
    as (l & init' & j & element & selectable & child & _ & _ & _ & _ & _
        & Hs & Hnode & Hfind & _ & Hwrap).
  assert (Hc : selectedElement c = Some (element, j)).
  { simpl in Hwrap. destruct isVariableDeclarator; inversion Hwrap; subst c;
      cbn; now rewrite Hnode. }
  rewrite Hselected in Hc. injection Hc as He Hj. subst j.
  rewrite <- He in Hs, Hfind. clear He Hnode element.
  pose proof (identifier_leaf_extends _ _ _ _ _ _ Hfind) as Hchild.
  unfold asSelectableNode in Hs. cbn [loc_of] in Hs.
  injection Hs as Hs. subst selectable.
  unfold isSelectableNode in Hsel.
  destruct (loc_of next) as [nl|] eqn:Hnl; [|discriminate].
  assert (Hafter : flatten (itemAfter elements index) = Some next).
  { unfold itemAfter. now rewrite Hnext. }
  unfold newInlinableArrayPattern in Hwrap. rewrite Hafter in Hwrap.
  unfold asSelectableNode in Hwrap at 2. rewrite Hnl in Hwrap.
  simpl in Hwrap.
  destruct isVariableDeclarator; inversion Hwrap; subst c; cbn;
    rewrite Hchild; cbn;
    destruct (match flatten (itemBefore elements index) with
              | Some p => asSelectableNode p
              | None => None
              end); split; reflexivity.
Qed.

Lemma element_before_another_removes_only_itself_witness :
  exists c,
    findInlinableCode (cursorAt 1 16) withArrayValue
      (ArrayPattern (at_ 1 14 1 26) pairElements) (Some pairProperty) false
    = Some c
    /\ selectedElement c = Some (Identifier (Some (span 1 15 1 19)) "head", 0)
    /\ nth_error pairElements 1 = Some (Some tailElement)
    /\ isSelectableNode tailElement = true
    /\ shouldExtendSelectionToDeclaration c = false
    /\ codeToRemoveSelection c = fromAST (span 1 15 1 19).
Proof.
  eexists. split; [reflexivity|]. split; [reflexivity|].
  split; [reflexivity|]. split; [reflexivity|].
  exact (@element_before_another_removes_only_itself
           (cursorAt 1 16) withArrayValue pairProperty (at_ 1 14 1 26)
           pairElements false _ (span 1 15 1 19) "head" 0 tailElement
           eq_refl eq_refl eq_refl eq_refl).
Defined.
